(** * flask_toolkits.routing: parameter binding and rule normalisation

    A shallow embedding of [src/flask_toolkits/routing.py] (class
    [APIRouter]) and the properties its specification states about it.

    Layout: Python values and exceptions; dictionaries; the small part of
    [re] the router uses; the rule normaliser ([validate_rule],
    [validate_rule_for_swagger], [check_params_in_path]); enum
    normalisation ([fill_all_enum_value]); the request binder
    ([get_kwargs]); the signature resolver ([_get_func_signature]) and the
    router's dependency list ([update_dependencies]).  Definitions come
    first, theorems after. *)

From Stdlib Require Import String Ascii List Bool Arith Lia ZArith.
Import ListNotations.

Set Warnings "-register-all".

(* ================================================================== *)
(** ** Exceptions and the result monad *)

(** The exceptions the modelled code can raise. *)
Inductive exn : Type :=
| AssertionError
| IndexError
| TypeError
| AttributeError
| RecursionError
| SwaggerPathError
| ValidationError
| KeyError
| BadRequest.

(** A Python computation either returns a value or raises. *)
Inductive result (A : Type) : Type :=
| Return (a : A)
| Raise (e : exn).
Arguments Return {A} a.
Arguments Raise {A} e.

Definition bind {A B : Type} (m : result A) (k : A -> result B) : result B :=
  match m with
  | Return a => k a
  | Raise e => Raise e
  end.

Declare Scope py_scope.
Delimit Scope py_scope with py.
Notation "x <- m ;; k" := (bind m (fun x => k))
  (at level 61, m at next level, right associativity) : py_scope.
Open Scope py_scope.

(** [try: m except: h] with a bare [except]. *)
Definition try_except {A : Type} (m : result A) (h : result A) : result A :=
  match m with
  | Return a => Return a
  | Raise _ => h
  end.

(** Monadic left fold: a [for] loop whose body may raise. *)
Fixpoint foldM {A S : Type} (body : S -> A -> result S) (xs : list A) (s : S)
  : result S :=
  match xs with
  | [] => Return s
  | x :: xs' => s' <- body s x ;; foldM body xs' s'
  end.

(* ================================================================== *)
(** ** Strings as character lists

    Route patterns are scanned character by character, so they are
    modelled as [list ascii]; dictionary keys and wire names are
    [string]s. *)

Definition str := list ascii.

Definition s2l (s : string) : str := list_ascii_of_string s.

Definition ch_lt : ascii := "<"%char.
Definition ch_gt : ascii := ">"%char.
Definition ch_colon : ascii := ":"%char.
Definition ch_lbrace : ascii := "{"%char.
Definition ch_rbrace : ascii := "}"%char.
Definition ch_newline : ascii := "010"%char.

(** [s.count(c)] for a one-character argument. *)
Definition count_char (c : ascii) (s : str) : nat :=
  count_occ ascii_dec s c.

(** [s.index(c)]: position of the first [c]; [None] stands for
    [ValueError]. *)
Fixpoint index_char (c : ascii) (s : str) : option nat :=
  match s with
  | [] => None
  | x :: s' => if Ascii.eqb x c then Some 0
               else option_map S (index_char c s')
  end.

(** Is [p] a prefix of [s]? *)
Fixpoint prefixb (p s : str) : bool :=
  match p, s with
  | [], _ => true
  | _ :: _, [] => false
  | a :: p', b :: s' => Ascii.eqb a b && prefixb p' s'
  end.

(** Number of positions of [s] at which [p] occurs. *)
Fixpoint occurrences (p s : str) : nat :=
  match s with
  | [] => if prefixb p [] then 1 else 0
  | _ :: s' => (if prefixb p s then 1 else 0) + occurrences p s'
  end.

(* ================================================================== *)
(** ** The fragment of [re] used by the router

    Two patterns are compiled: ["[<]{1}.*[>]{1}"] in [validate_rule] and
    ["[<]{1}" + key + "[>]{1}"] in [check_params_in_path].  A one-character
    class repeated once is that character; [.*] is the greedy run of
    characters other than a newline. *)

Inductive re_atom : Type :=
| ReChar (c : ascii)
| ReDotStar.

Definition regex := list re_atom.

(** Length of the match of [r] anchored at the head of [s], found by
    backtracking with [.*] taking the longest run first. *)
Fixpoint match_here (r : regex) : str -> option nat :=
  match r with
  | [] => fun _ => Some 0
  | ReChar c :: r' => fun s =>
      match s with
      | x :: s' => if Ascii.eqb x c then option_map S (match_here r' s')
                   else None
      | [] => None
      end
  | ReDotStar :: r' =>
      fix star (s : str) : option nat :=
        match s with
        | x :: s' =>
            if Ascii.eqb x ch_newline then match_here r' s
            else match star s' with
                 | Some n => Some (S n)
                 | None => match_here r' s
                 end
        | [] => match_here r' []
        end
  end.

(** [pattern.findall(s)]: the non-overlapping matches, leftmost first.
    After an empty match the scan moves one character on.  [fuel] bounds the
    number of scan positions. *)
Fixpoint findall_aux (fuel : nat) (r : regex) (s : str) : list str :=
  match fuel with
  | 0 => []
  | S fuel' =>
      match match_here r s with
      | Some 0 =>
          [] :: match s with
                | [] => []
                | _ :: s' => findall_aux fuel' r s'
                end
      | Some n => firstn n s :: findall_aux fuel' r (skipn n s)
      | None =>
          match s with
          | [] => []
          | _ :: s' => findall_aux fuel' r s'
          end
      end
  end.

Definition findall (r : regex) (s : str) : list str :=
  findall_aux (S (length s)) r s.

(* ================================================================== *)
(** ** Rule normaliser *)

(** [validate_rule_for_swagger]: the loop state is
    [(opening_found, new_rule)]. *)
Definition swagger_step (st : bool * str) (c : ascii) : bool * str :=
  let '(opening_found, new_rule) := st in
  if negb opening_found && Ascii.eqb c ch_lt then (true, new_rule ++ [ch_lbrace])
  else if opening_found && Ascii.eqb c ch_gt then (false, new_rule ++ [ch_rbrace])
  else (opening_found, new_rule ++ [c]).

Definition validate_rule_for_swagger (rule : str) : str :=
  snd (fold_left swagger_step rule (false, [])).

(** The pattern [r"[<]{1}.*[>]{1}"]. *)
Definition placeholder_span : regex := [ReChar ch_lt; ReDotStar; ReChar ch_gt].

(** The assertion loop of [validate_rule]. *)
Fixpoint assert_single_type (texts : list str) : result unit :=
  match texts with
  | [] => Return tt
  | text :: rest =>
      if (count_char ch_colon text =? 0) || (count_char ch_colon text =? 1)
      then assert_single_type rest
      else Raise AssertionError
  end.

(** State of the rewriting loop of [validate_rule]. *)
Record vr_state : Type := mk_vr {
  new_rule : str;
  start_write_path : bool;
  start_path : list str
}.

(** [l[-1]] and [l[-1] = v]. *)
Definition last_opt {A : Type} (l : list A) : option A :=
  match rev l with
  | [] => None
  | x :: _ => Some x
  end.

Definition set_last {A : Type} (l : list A) (v : A) : list A :=
  removelast l ++ [v].

(** [text[text.index(":")+1:]] when [text] has a colon, else [text]. *)
Definition strip_type (text : str) : str :=
  if count_char ch_colon text =? 0 then text
  else match index_char ch_colon text with
       | Some i => skipn (S i) text
       | None => text
       end.

Definition vr_step (st : vr_state) (c : ascii) : result vr_state :=
  if Ascii.eqb c ch_lt then
    Return (mk_vr (new_rule st) true (start_path st ++ [[]]))
  else if Ascii.eqb c ch_gt then
    match last_opt (start_path st) with
    | None => Raise IndexError
    | Some cur =>
        let cur' := strip_type cur in
        let sp := if count_char ch_colon cur =? 0 then start_path st
                  else set_last (start_path st) cur' in
        Return (mk_vr (new_rule st ++ [ch_lt] ++ cur' ++ [ch_gt]) false sp)
    end
  else if negb (start_write_path st) then
    Return (mk_vr (new_rule st ++ [c]) (start_write_path st) (start_path st))
  else
    match last_opt (start_path st) with
    | None => Raise IndexError
    | Some cur =>
        Return (mk_vr (new_rule st) (start_write_path st)
                      (set_last (start_path st) (cur ++ [c])))
    end.

Definition vr_init : vr_state := mk_vr [] false [].

Definition validate_rule (rule : str) : result str :=
  _ <- assert_single_type (findall placeholder_span rule) ;;
  st <- foldM vr_step rule vr_init ;;
  Return (new_rule st).

(** The pattern ["[<]{1}" + key + "[>]{1}"] for a [key] made of identifier
    characters, none of which is special in a pattern. *)
Definition key_pattern (key : str) : regex :=
  ReChar ch_lt :: map ReChar key ++ [ReChar ch_gt].

Definition check_params_in_path (key path : str) : result bool :=
  let matched_keys := findall (key_pattern key) path in
  if length matched_keys =? 1 then Return true
  else if 1 <? length matched_keys then Raise SwaggerPathError
  else Return false.

(** Characters of a Python identifier (ASCII range). *)
Definition ident_char (c : ascii) : bool :=
  let n := nat_of_ascii c in
  ((65 <=? n) && (n <=? 90)) || ((97 <=? n) && (n <=? 122))
  || ((48 <=? n) && (n <=? 57)) || (n =? 95).

Definition identifier (key : str) : Prop :=
  key <> [] /\ forallb ident_char key = true.

(* ================================================================== *)
(** ** Python values *)

(** A [werkzeug] [FileStorage]: what [request.files] holds. *)
Record file_storage : Type := mk_file {
  fs_filename : string;
  fs_content : string
}.

(** The values that flow through the binder.  [VModel] is an instance of a
    class with a [__dict__] (in particular a [pydantic] model instance);
    [VEnum] is a member of an [enum.Enum] subclass with its [value]. *)
Inductive pyval : Type :=
| VNone
| VEllipsis
| VBool (b : bool)
| VInt (z : Z)
| VStr (s : string)
| VList (xs : list pyval)
| VDict (d : list (string * pyval))
| VEnum (cls member : string) (value : pyval)
| VModel (cls : string) (fields : list (string * pyval))
| VFile (f : file_storage).

(** Insertion-ordered dictionaries with string keys. *)
Definition dict (V : Type) : Type := list (string * V).

Section Dict.
Variable V : Type.

Fixpoint dict_get (k : string) (d : dict V) : option V :=
  match d with
  | [] => None
  | (k', v) :: d' => if String.eqb k' k then Some v else dict_get k d'
  end.

Definition dict_mem (k : string) (d : dict V) : bool :=
  match dict_get k d with Some _ => true | None => false end.

(** [d[k] = v]: replace in place, or append a new key. *)
Fixpoint dict_set (k : string) (v : V) (d : dict V) : dict V :=
  match d with
  | [] => [(k, v)]
  | (k', v') :: d' =>
      if String.eqb k' k then (k', v) :: d'
      else (k', v') :: dict_set k v d'
  end.

(** [d.update(e)], also [{**d, **e}]. *)
Definition dict_update (d e : dict V) : dict V :=
  fold_left (fun acc kv => dict_set (fst kv) (snd kv) acc) e d.

Definition dict_keys (d : dict V) : list string := map fst d.

Definition dict_values (d : dict V) : list V := map snd d.

(** [d[k]]. *)
Definition getitem (d : dict V) (k : string) : result V :=
  match dict_get k d with
  | Some v => Return v
  | None => Raise KeyError
  end.

(** [{k: f(k) for k in ks if keep(k)}]. *)
Definition dict_comp (ks : list string) (keep : string -> bool)
           (f : string -> V) : dict V :=
  fold_left (fun acc k => if keep k then dict_set k (f k) acc else acc)
            ks [].
End Dict.

Arguments dict_get {V} k d.
Arguments dict_mem {V} k d.
Arguments dict_set {V} k v d.
Arguments dict_update {V} d e.
Arguments dict_keys {V} d.
Arguments dict_values {V} d.
Arguments getitem {V} d k.
Arguments dict_comp {V} ks keep f.

(** Truth value of an object in a condition. *)
Definition truthy (v : pyval) : bool :=
  match v with
  | VNone => false
  | VEllipsis => true
  | VBool b => b
  | VInt z => negb (Z.eqb z 0)
  | VStr s => negb (String.eqb s "")
  | VList xs => match xs with [] => false | _ => true end
  | VDict d => match d with [] => false | _ => true end
  | VEnum _ _ _ => true
  | VModel _ _ => true
  | VFile f => negb (String.eqb (fs_filename f) "")
  end.

(* ================================================================== *)
(** ** Enum normalisation *)

(** [fill_all_enum_value].  [depth] is the number of interpreter frames
    still available: a nested call with none left raises [RecursionError]
    inside the caller's [try], and the bare [except] turns every exception
    of the body into [return o]. *)
Fixpoint fill_all_enum_value (depth : nat) (o : pyval) : result pyval :=
  try_except
    (match o with
     | VDict d =>
         datas <- foldM
           (fun datas k =>
              item <- getitem d k ;;
              match depth with
              | 0 => Raise RecursionError
              | S depth' =>
                  v <- fill_all_enum_value depth' item ;;
                  Return (dict_set k v datas)
              end)
           (dict_keys d) [] ;;
         Return (VDict datas)
     | VEnum _ _ value => Return value
     | _ => Return o
     end)
    (Return o).

(** Nesting depth of dictionaries in a value. *)
Fixpoint dict_depth (o : pyval) : nat :=
  match o with
  | VDict d =>
      S ((fix go (d : list (string * pyval)) : nat :=
            match d with
            | [] => 0
            | (_, v) :: d' => Nat.max (dict_depth v) (go d')
            end) d)
  | _ => 0
  end.

(** The value [fill_all_enum_value] is meant to compute on nested
    dictionaries: enum members replaced by their values at every level. *)
Fixpoint enum_normal (o : pyval) : pyval :=
  match o with
  | VDict d =>
      VDict ((fix go (d : list (string * pyval)) : list (string * pyval) :=
                match d with
                | [] => []
                | (k, v) :: d' => (k, enum_normal v) :: go d'
                end) d)
  | VEnum _ _ value => value
  | _ => o
  end.

(** Dictionaries have one entry per key, at every level of nesting. *)
Fixpoint unique_keys (o : pyval) : Prop :=
  match o with
  | VDict d =>
      NoDup (map fst d)
      /\ (fix all (d : list (string * pyval)) : Prop :=
            match d with
            | [] => True
            | (_, v) :: d' => unique_keys v /\ all d'
            end) d
  | _ => True
  end.

Definition is_dict (o : pyval) : bool :=
  match o with VDict _ => true | _ => false end.

Definition is_enum (o : pyval) : bool :=
  match o with VEnum _ _ _ => true | _ => false end.

(** [vars(o)]. *)
Definition vars (o : pyval) : result (dict pyval) :=
  match o with
  | VModel _ fields => Return fields
  | _ => Raise TypeError
  end.

(* ================================================================== *)
(** ** Parameter sources, annotations and signatures *)

(** The classes of [flask_toolkits.params]. *)
Inductive param_class : Type :=
| Path | Query | Header | Body | Form | FormURLEncoded | File.

Definition param_class_eqb (a b : param_class) : bool :=
  match a, b with
  | Path, Path | Query, Query | Header, Header | Body, Body
  | Form, Form | FormURLEncoded, FormURLEncoded | File, File => true
  | _, _ => false
  end.

(** Type annotations, by the class of the annotation object: a class (with
    whether it derives from [pydantic.BaseModel]), a [typing._GenericAlias]
    with its [__args__], a [typing._SpecialForm] (which has no [__args__]),
    or any other object. *)
Inductive annot : Type :=
| AClass (name : string) (is_model : bool)
| AGenericAlias (origin : string) (args : list annot)
| ASpecialForm (name : string)
| AOther (name : string).

(** An instance of one of the parameter classes: the attributes the router
    reads. *)
Record param_object : Type := mk_param {
  pclass : param_class;
  default : pyval;
  alias : option string;
  dtype : annot
}.

(** [ParamSignature(name, _type, param_object)]. *)
Record ParamSignature : Type := mk_sig {
  sig_name : string;
  _type : annot;
  sig_param_object : param_object
}.

(** [po.alias or k]. *)
Definition alias_or (po : param_object) (k : string) : string :=
  match alias po with
  | Some a => if String.eqb a "" then k else a
  | None => k
  end.

(** [BaseModel.__subclasscheck__(annot)]: [TypeError] when the argument is
    not a class. *)
Definition subclasscheck_BaseModel (a : annot) : result bool :=
  match a with
  | AClass _ is_model => Return is_model
  | _ => Raise TypeError
  end.

(** [get_pydantic_from_annots].  The [for] loop returns in its first
    iteration; with no arguments, and for every other annotation, the
    function falls off its end and returns [None]. *)
Fixpoint get_pydantic_from_annots (a : annot) : result (option annot) :=
  match try_except (subclasscheck_BaseModel a) (Return false) with
  | Return true => Return (Some a)
  | _ =>
      match a with
      | AGenericAlias _ args =>
          match args with
          | [] => Return None
          | a0 :: _ =>
              b <- get_pydantic_from_annots a0 ;;
              match b with
              | Some b' => Return (Some b')
              | None => Return (Some a)
              end
          end
      | ASpecialForm _ => Raise AttributeError
      | _ => Return None
      end
  end.

(** [count_required_body]. *)
Definition count_required_body (paired_params : dict ParamSignature) : nat :=
  fold_left
    (fun total pp =>
       if param_class_eqb (pclass (sig_param_object pp)) Body
       then total + 1 else total)
    (dict_values paired_params) 0.

(** The alias tables built by [get_params_aliases], one per source. *)
Record alias_tables : Type := mk_aliases {
  al_path : dict string;
  al_header : dict string;
  al_query : dict string;
  al_body : dict string;
  al_form : dict string;
  al_file : dict string
}.

Definition no_aliases : alias_tables := mk_aliases [] [] [] [] [] [].

(** [get_params_aliases]: the [isinstance] chain, with the parameter
    classes taken as unrelated by inheritance. *)
Definition get_params_aliases (paired_params : dict ParamSignature)
  : alias_tables :=
  fold_left
    (fun al kv =>
       let key := fst kv in
       let po := sig_param_object (snd kv) in
       let a := alias_or po key in
       match pclass po with
       | Path => mk_aliases (dict_set key a (al_path al)) (al_header al)
                   (al_query al) (al_body al) (al_form al) (al_file al)
       | Header => mk_aliases (al_path al) (dict_set key a (al_header al))
                   (al_query al) (al_body al) (al_form al) (al_file al)
       | Query => mk_aliases (al_path al) (al_header al)
                   (dict_set key a (al_query al)) (al_body al) (al_form al)
                   (al_file al)
       | Body => mk_aliases (al_path al) (al_header al) (al_query al)
                   (dict_set key a (al_body al)) (al_form al) (al_file al)
       | Form | FormURLEncoded =>
                 mk_aliases (al_path al) (al_header al) (al_query al)
                   (al_body al) (dict_set key a (al_form al)) (al_file al)
       | File => mk_aliases (al_path al) (al_header al) (al_query al)
                   (al_body al) (al_form al) (dict_set key a (al_file al))
       end)
    paired_params no_aliases.

(** [convert_alias_to_name]: despite its name it maps each binding key of
    [input_name] that the table knows to its alias. *)
Definition convert_alias_to_name (aliases : dict string)
           (input_name : list string) : list string :=
  flat_map
    (fun key => match dict_get key aliases with
                | Some a => [a]
                | None => []
                end)
    input_name.

(* ================================================================== *)
(** ** Requests *)

(** What the binder reads of a [flask.Request].  [args], [headers] and
    [form] are multi-valued in the order received; [json] is the outcome of
    evaluating [request.json], which can raise. *)
Record request : Type := mk_request {
  method : string;
  args : list (string * string);
  headers : list (string * string);
  form : list (string * string);
  files : list (string * file_storage);
  json : result pyval
}.

Definition set_json (j : result pyval) (r : request) : request :=
  mk_request (method r) (args r) (headers r) (form r) (files r) j.

(** [MultiDict.to_dict()]: the first value of each key. *)
Definition to_dict (m : list (string * string)) : dict pyval :=
  fold_left
    (fun acc kv => if dict_mem (fst kv) acc then acc
                   else dict_set (fst kv) (VStr (snd kv)) acc)
    m [].

(** [MultiDict.get(k)]: the first value, or [None]. *)
Definition multi_get (k : string) (m : list (string * string)) : pyval :=
  match dict_get k m with
  | Some v => VStr v
  | None => VNone
  end.

Definition lower_char (c : ascii) : ascii :=
  let n := nat_of_ascii c in
  if (65 <=? n) && (n <=? 90) then ascii_of_nat (n + 32) else c.

Fixpoint lower (s : string) : string :=
  match s with
  | EmptyString => EmptyString
  | String c s' => String (lower_char c) (lower s')
  end.

(** [request.headers.get(k)]: header names compare case-insensitively. *)
Fixpoint headers_get (k : string) (h : list (string * string)) : pyval :=
  match h with
  | [] => VNone
  | (k', v) :: h' =>
      if String.eqb (lower k') (lower k) then VStr v else headers_get k h'
  end.

(** [request.files.get(k)]. *)
Definition files_get (k : string) (fs : list (string * file_storage)) : pyval :=
  match dict_get k fs with
  | Some f => VFile f
  | None => VNone
  end.

(** [request.json.get(ak, None)]. *)
Definition json_get (j : result pyval) (ak : string) : result pyval :=
  payload <- j ;;
  match payload with
  | VDict d => match dict_get ak d with
               | Some v => Return v
               | None => Return VNone
               end
  | _ => Raise AttributeError
  end.

(** The generated [pydantic] model class of a route: its [__fields__] keys
    and which variant it is. *)
Record pydantic_schema : Type := mk_schema {
  schema_name : string;
  schema_fields : list string;
  schema_with_body : bool
}.

(** Modelled from the spec: [BaseSchema.get_non_exist_var_in_kwargs] of
    [flask_toolkits/schemas.py], which is not among the sources.  It
    determines, from the schema, which declared binding keys are still
    absent from the working set. *)
Definition get_non_exist_var_in_kwargs (pydantic_model : pydantic_schema)
           (kwargs : dict pyval) : list string :=
  filter (fun k => negb (dict_mem k kwargs)) (schema_fields pydantic_model).

Definition is_get (r : request) : bool := String.eqb (method r) "GET".

(* ================================================================== *)
(** ** The request binder *)

Section Binder.

(** [pydantic] is an external library: calling a user model class on an
    unpacked payload and calling the generated schema class on the
    unpacked working set are parameters of the development. *)
Variable construct : string -> dict pyval -> result pyval.
Variable validate : pydantic_schema -> dict pyval -> result pyval.

(** Calling the class [b] on the unpacked [x]: [x] must be a mapping. *)
Definition call_model (b : annot) (x : pyval) : result pyval :=
  match b, x with
  | AClass name _, VDict d => construct name d
  | _, _ => Raise TypeError
  end.

(** Lines 714-725: path, query and header values. *)
Definition query_kwargs (r : request) (aliases : alias_tables)
           (variables : list string) : dict pyval :=
  let queries := to_dict (args r) in
  dict_comp (convert_alias_to_name (al_query aliases) variables)
            (fun k => dict_mem k queries)
            (fun k => match dict_get k queries with
                      | Some v => v
                      | None => VNone
                      end).

Definition header_kwargs (r : request) (aliases : alias_tables)
           (variables : list string) : dict pyval :=
  dict_comp (convert_alias_to_name (al_header aliases) variables)
            (fun k => truthy (headers_get k (headers r)))
            (fun k => headers_get k (headers r)).

(** Lines 728-735: form and file values of a request other than GET. *)
Definition form_kwargs (r : request) (aliases : alias_tables)
           (variables : list string) : dict pyval :=
  dict_comp (convert_alias_to_name (al_form aliases) variables)
            (fun k => truthy (multi_get k (form r)))
            (fun k => multi_get k (form r)).

Definition file_kwargs (r : request) (aliases : alias_tables)
           (variables : list string) : dict pyval :=
  dict_comp (convert_alias_to_name (al_file aliases) variables)
            (fun k => truthy (files_get k (files r)))
            (fun k => files_get k (files r)).

Definition dummy : pyval := VStr "__dummy".

Definition dummy_file_kwargs (fk : dict pyval) : dict pyval :=
  dict_comp (dict_keys fk) (fun _ => true) (fun _ => dummy).

(** The working set after the path and query steps. *)
Definition kwargs_after_query (paths : dict pyval) (r : request)
           (aliases : alias_tables) (variables : list string) : dict pyval :=
  dict_update paths (query_kwargs r aliases variables).

(** The working set before the body step (lines 714-735). *)
Definition extracted_kwargs (paths : dict pyval) (r : request)
           (aliases : alias_tables) (variables : list string) : dict pyval :=
  let kwargs :=
    dict_update (kwargs_after_query paths r aliases variables)
                (header_kwargs r aliases variables) in
  if negb (is_get r) then
    dict_update (form_kwargs r aliases variables)
                (dummy_file_kwargs (file_kwargs r aliases variables))
  else kwargs.

(** Lines 749-759: the value read from the JSON payload for one key of
    type [Body], for a request other than GET. *)
Definition body_payload (r : request) (total_body : nat) (po : param_object)
           (k : string) : result pyval :=
  let ak := alias_or po k in
  b <- get_pydantic_from_annots (dtype po) ;;
  match b with
  | Some b' =>
      is_model <- subclasscheck_BaseModel b' ;;
      if is_model then
        if total_body =? 1 then
          payload <- json r ;; call_model b' payload
        else
          sub <- json_get (json r) ak ;; call_model b' sub
      else json_get (json r) ak
  | None => json_get (json r) ak
  end.

(** One iteration of the loop over [empty_keys] (lines 740-759). *)
Definition resolve_body (r : request) (paired_params : dict ParamSignature)
           (total_body : nat) (kwargs : dict pyval) (k : string)
  : result (dict pyval) :=
  match dict_get k paired_params with
  | Some pp =>
      let po := sig_param_object pp in
      if param_class_eqb (pclass po) Body then
        let kwargs := dict_set k VNone kwargs in
        if negb (is_get r) then
          v <- body_payload r total_body po k ;;
          Return (dict_set k v kwargs)
        else Return kwargs
      else Return kwargs
  | None => Return kwargs
  end.

(** Lines 737-759: the working set handed to validation. *)
Definition resolved_kwargs (paths : dict pyval) (r : request)
           (paired_params : dict ParamSignature)
           (pydantic_model : pydantic_schema) (aliases : alias_tables)
  : result (dict pyval) :=
  let kwargs := extracted_kwargs paths r aliases
                                 (schema_fields pydantic_model) in
  let empty_keys := get_non_exist_var_in_kwargs pydantic_model kwargs in
  let total_body := count_required_body paired_params in
  if total_body =? 0 then Return kwargs
  else foldM (resolve_body r paired_params total_body) empty_keys kwargs.

(** Lines 762-771: validation, enum normalisation, [vars], and the file
    values merged last. *)
Definition finish_kwargs (depth : nat) (r : request)
           (pydantic_model : pydantic_schema) (aliases : alias_tables)
           (kwargs : dict pyval) : result (dict pyval) :=
  valid <- validate pydantic_model kwargs ;;
  valid' <- fill_all_enum_value depth valid ;;
  valid_kwargs <- vars valid' ;;
  if negb (is_get r) then
    Return (dict_update valid_kwargs
              (file_kwargs r aliases (schema_fields pydantic_model)))
  else Return valid_kwargs.

Definition get_kwargs (depth : nat) (paths : dict pyval) (r : request)
           (paired_params : dict ParamSignature)
           (pydantic_model : pydantic_schema) (aliases : alias_tables)
  : result (dict pyval) :=
  kwargs <- resolved_kwargs paths r paired_params pydantic_model aliases ;;
  finish_kwargs depth r pydantic_model aliases kwargs.


End Binder.

Arguments call_model construct b x : assert.

(* ================================================================== *)
(** ** Signature resolver and the router's dependency list *)

Section Resolver.

(** Python callables (handlers and dependencies), compared by identity. *)
Variable func : Type.
Variable func_eqb : func -> func -> bool.

(** An entry of a [dependencies] list: a callable, or some other
    object. *)
Inductive dependency : Type :=
| DepCallable (f : func)
| DepObject (id : nat).

Definition dependency_eqb (a b : dependency) : bool :=
  match a, b with
  | DepCallable f, DepCallable g => func_eqb f g
  | DepObject i, DepObject j => Nat.eqb i j
  | _, _ => false
  end.

(** [update_dependencies]: the list after the loop. *)
Definition update_dependencies (dependecies stack : list dependency)
  : list dependency :=
  fold_left
    (fun deps s => if existsb (dependency_eqb s) deps then deps
                   else deps ++ [s])
    stack dependecies.

(** Lines 591-638 of [_get_func_signature]: the loop over the callable's
    own parameters, which inspects the callable reflectively and calls
    [_get_func_signature] again for [Depends] defaults.  It is a parameter
    here, given the recursive call and the path. *)
Variable own_parameters :
  (func -> result (dict ParamSignature)) -> str -> func ->
  result (dict ParamSignature).

(** [_get_func_signature]; lines 640-645 splice in the signature of every
    callable of the router's dependency list.  [depth] is the number of
    interpreter frames left for nested calls. *)
Fixpoint _get_func_signature (depth : nat) (dependecies : list dependency)
         (path : str) (f : func) : result (dict ParamSignature) :=
  let self_call := fun g =>
    match depth with
    | 0 => Raise RecursionError
    | S depth' => _get_func_signature depth' dependecies path g
    end in
  pair <- own_parameters self_call path f ;;
  foldM
    (fun pair dependency =>
       match dependency with
       | DepCallable g =>
           sub <- self_call g ;; Return (dict_update pair sub)
       | DepObject _ => Return pair
       end)
    dependecies pair.

(** The router field that registration of a route updates. *)
Record router : Type := mk_router {
  dependecies : list dependency
}.

(** [route(rule, dependencies=...)(func)] as far as the resolved
    signature: the assertion on the rule, the update of the dependency
    list, then the decorator's call of [_get_func_signature].  The router
    keeps the updated list also when the decorator raises. *)
Definition route (depth : nat) (rt : router) (rule : str)
           (dependencies : list dependency) (f : func)
  : router * result (dict ParamSignature) :=
  match rule with
  | [] => (rt, Raise IndexError)
  | c :: _ =>
      if Ascii.eqb c "/"%char then
        let deps := update_dependencies (dependecies rt) dependencies in
        (mk_router deps, _get_func_signature depth deps rule f)
      else (rt, Raise AssertionError)
  end.

End Resolver.

Arguments DepCallable {func} f.
Arguments DepObject {func} id.
Arguments dependency_eqb {func} func_eqb a b.
Arguments update_dependencies {func} func_eqb dependecies stack.
Arguments _get_func_signature {func} own_parameters depth dependecies path f.
Arguments route {func} func_eqb own_parameters depth rt rule dependencies f.
Arguments mk_router {func} dependecies.
Arguments dependecies {func} r.

(* ================================================================== *)
(** ** Route patterns as the specification describes them

    A pattern is a sequence of literal text and placeholders [<name>] or
    [<type:name>]. *)

Inductive segment : Type :=
| Text (t : str)
| Placeholder (type : option str) (name : str).

Definition render_segment (seg : segment) : str :=
  match seg with
  | Text t => t
  | Placeholder None name => [ch_lt] ++ name ++ [ch_gt]
  | Placeholder (Some ty) name => [ch_lt] ++ ty ++ [ch_colon] ++ name ++ [ch_gt]
  end.

Definition render (segs : list segment) : str := flat_map render_segment segs.

(** The documentation path the specification asks for: [{name}] for each
    placeholder, the text as it is. *)
Definition doc_segment (seg : segment) : str :=
  match seg with
  | Text t => t
  | Placeholder _ name => [ch_lbrace] ++ name ++ [ch_rbrace]
  end.

Definition doc_path (segs : list segment) : str := flat_map doc_segment segs.

(** The pattern with every type prefix removed. *)
Definition untyped_segment (seg : segment) : str :=
  match seg with
  | Text t => t
  | Placeholder _ name => [ch_lt] ++ name ++ [ch_gt]
  end.

Definition untyped (segs : list segment) : str := flat_map untyped_segment segs.

Definition no_brackets (s : str) : Prop := ~ In ch_lt s /\ ~ In ch_gt s.

Definition plain_name (s : str) : Prop := no_brackets s /\ ~ In ch_colon s.

Definition wf_segment (seg : segment) : Prop :=
  match seg with
  | Text t => no_brackets t
  | Placeholder None name => plain_name name
  | Placeholder (Some ty) name => plain_name ty /\ plain_name name
  end.

(** The placeholder text [<key>]. *)
Definition placeholder (key : str) : str := ch_lt :: key ++ [ch_gt].

(** The body of a placeholder as written, and its name. *)
Definition placeholder_body (type : option str) (name : str) : str :=
  match type with
  | None => name
  | Some ty => ty ++ [ch_colon] ++ name
  end.

(** Names collected in [start_path] by the loop. *)
Definition placeholder_names (segs : list segment) : list str :=
  flat_map (fun seg => match seg with
                       | Text _ => []
                       | Placeholder _ name => [name]
                       end) segs.

(** An example pattern: text, a typed placeholder, text. *)
Definition shop_pattern : list segment :=
  [Text (s2l "/shop/"); Placeholder (Some (s2l "int")) (s2l "id");
   Text (s2l "/items")].

(* ================================================================== *)
(** ** The binding rules as the specification states them *)

(** The query step as the specification words it, in two parts: every
    binding key of the query table whose aliased name is among the query
    parameters has the query value under the binding key; and every value
    seeded from the path is still there after the merge. *)
Definition query_value_under_binding_key (paths : dict pyval) (r : request)
           (aliases : alias_tables) (variables : list string) : Prop :=
  forall k a s,
    In k variables ->
    dict_get k (al_query aliases) = Some a ->
    dict_get a (args r) = Some s ->
    dict_get k (kwargs_after_query paths r aliases variables) = Some (VStr s).

Definition path_values_kept (paths : dict pyval) (r : request)
           (aliases : alias_tables) (variables : list string) : Prop :=
  forall k v,
    dict_get k paths = Some v ->
    dict_get k (kwargs_after_query paths r aliases variables) = Some v.

(** Is [k] a parameter of type [Body] in the signature? *)
Definition body_key (paired_params : dict ParamSignature) (k : string) : bool :=
  match dict_get k paired_params with
  | Some pp => param_class_eqb (pclass (sig_param_object pp)) Body
  | None => false
  end.

(** The aliased names of the query table that the request supplies. *)
Definition present_query_names (r : request) (aliases : alias_tables)
           (variables : list string) : list string :=
  filter (fun a => dict_mem a (to_dict (args r)))
         (convert_alias_to_name (al_query aliases) variables).

(* ================================================================== *)
(** ** Example routes and requests *)

(** A stand-in for a generated schema class, used in the examples only:
    each field is read from the working set under its alias (its own name
    when [field_alias] has none), a missing field is a validation error, and
    [coerce] is applied to the value. *)
Definition sample_validate (field_alias : dict string)
           (coerce : string -> pyval -> pyval)
           (sch : pydantic_schema) (kwargs : dict pyval) : result pyval :=
  fields <- foldM
    (fun acc k =>
       let a := match dict_get k field_alias with Some a => a | None => k end in
       match dict_get a kwargs with
       | Some v => Return (acc ++ [(k, coerce k v)])
       | None => Raise ValidationError
       end)
    (schema_fields sch) [] ;;
  Return (VModel (schema_name sch) fields).

(** A stand-in for a user model class: an instance holding the payload's
    items, each passed through [coerce]. *)
Definition sample_construct (coerce : string -> pyval -> pyval)
           (name : string) (payload : dict pyval) : result pyval :=
  Return (VModel name (map (fun kv => (fst kv, coerce (fst kv) (snd kv)))
                           payload)).

Definition no_coercion (_ : string) (v : pyval) : pyval := v.

Definition str_sig (k : string) (c : param_class) (a : option string)
  : ParamSignature :=
  mk_sig k (AClass "str" false) (mk_param c VEllipsis a (AClass "str" false)).

Definition model_sig (k : string) (model : string) (a : option string)
  : ParamSignature :=
  mk_sig k (AClass model true) (mk_param Body VEllipsis a (AClass model true)).

(** [GET /items/7?id=5] on the route [/items/<id>] of a handler
    [get_item(id, ref = Query(..., alias="id"))]. *)
Definition item_paths : dict pyval := [("id", VStr "7")]%string.

Definition item_request : request :=
  mk_request "GET" [("id", "5")]%string [] [] [] (Raise BadRequest).

Definition item_signature : dict ParamSignature :=
  [("id", str_sig "id" Path None);
   ("ref", str_sig "ref" Query (Some "id"))]%string.

Definition item_schema : pydantic_schema :=
  mk_schema "get_itemSchema_no_Body" ["id"; "ref"]%string false.

(** [POST /users] of a handler [create(user: User, meta: Meta)] with the
    payload [{"user": {"name": "ann"}, "meta": {"tag": "new"}}]. *)
Definition users_signature : dict ParamSignature :=
  [("user", model_sig "user" "User" None);
   ("meta", model_sig "meta" "Meta" (Some "info"))]%string.

Definition users_schema : pydantic_schema :=
  mk_schema "createSchema" ["user"; "meta"]%string true.

Definition users_payload : pyval :=
  VDict [("user", VDict [("name", VStr "ann")]);
         ("info", VDict [("tag", VStr "new")])]%string.

Definition users_request : request :=
  mk_request "POST" [] [] [] [] (Return users_payload).

(** [POST /user] of a handler [create(user: User)] with the payload
    [{"name": "ann"}]. *)
Definition user_signature : dict ParamSignature :=
  [("user", model_sig "user" "User" None)]%string.

Definition user_schema : pydantic_schema :=
  mk_schema "createSchema" ["user"]%string true.

Definition user_request : request :=
  mk_request "POST" [] [] [] []
             (Return (VDict [("name", VStr "ann")]%string)).

(** The same route asked with GET, the payload still attached. *)
Definition user_get_request : request :=
  mk_request "GET" [] [] [] []
             (Return (VDict [("name", VStr "ann")]%string)).

(** [POST /upload] of a handler [upload(doc = File(..., alias="document"))]
    with a file sent under the name [document]. *)
Definition upload_file : file_storage := mk_file "a.txt" "hello".

Definition upload_signature : dict ParamSignature :=
  [("doc", str_sig "doc" File (Some "document"))]%string.

Definition upload_schema : pydantic_schema :=
  mk_schema "uploadSchema" ["doc"]%string true.

Definition upload_request : request :=
  mk_request "POST" [] [] [] [("document", upload_file)]%string
             (Raise BadRequest).

(** The same handler without the alias, the file sent as [doc]. *)
Definition plain_upload_signature : dict ParamSignature :=
  [("doc", str_sig "doc" File None)]%string.

Definition plain_upload_request : request :=
  mk_request "POST" [] [] [] [("doc", upload_file)]%string (Raise BadRequest).

(** [GET /paint?color=red] of a handler [paint(color: Color = Query(...))],
    [Color] an enumerated type with the member [RED = "red"]. *)
Definition color_red : pyval := VEnum "Color" "RED" (VStr "red").

Definition to_color (field : string) (v : pyval) : pyval :=
  match v with
  | VStr s => if String.eqb s "red" then color_red else v
  | _ => v
  end.

Definition paint_signature : dict ParamSignature :=
  [("color", mk_sig "color" (AClass "Color" false)
               (mk_param Query VEllipsis None (AClass "Color" false)))]%string.

Definition paint_schema : pydantic_schema :=
  mk_schema "paintSchema_no_Body" ["color"]%string false.

Definition paint_request : request :=
  mk_request "GET" [("color", "red")]%string [] [] [] (Raise BadRequest).

(** [POST /walls] of a handler [add(wall: Wall)], [Wall] a model class with
    a field [color: Color], with the payload [{"color": "red"}]. *)
Definition wall_signature : dict ParamSignature :=
  [("wall", model_sig "wall" "Wall" None)]%string.

Definition wall_schema : pydantic_schema :=
  mk_schema "addSchema" ["wall"]%string true.

Definition wall_request : request :=
  mk_request "POST" [] [] [] []
             (Return (VDict [("color", VStr "red")]%string)).

(** A stand-in for lines 591-638 on handlers without parameters. *)
Definition no_own_parameters {func : Type}
           (self_call : func -> result (dict ParamSignature))
           (path : str) (f : func) : result (dict ParamSignature) :=
  Return [].

(* ================================================================== *)
(** ** Further parts of the router *)

(** [str.upper()] on the ASCII range. *)
Definition upper_char (c : ascii) : ascii :=
  let n := nat_of_ascii c in
  if (97 <=? n) && (n <=? 122) then ascii_of_nat (n - 32) else c.

Fixpoint upper (s : string) : string :=
  match s with
  | EmptyString => EmptyString
  | String c s' => String (upper_char c) (upper s')
  end.

(** [self.available_methods]. *)
Definition available_methods : list string :=
  ["GET"; "POST"; "PUT"; "DELETE"; "PATCH"]%string.

(** Names of the placeholders written without a type. *)
Definition untyped_placeholder_names (segs : list segment) : list str :=
  flat_map (fun seg => match seg with
                       | Placeholder None name => [name]
                       | _ => []
                       end) segs.

Definition str_eq_dec : forall a b : str, {a = b} + {a <> b} :=
  list_eq_dec ascii_dec.

(** The outcome of [check_params_in_path] for a name seen [n] times. *)
Definition path_check_outcome (n : nat) : result bool :=
  match n with
  | 0 => Return false
  | 1 => Return true
  | _ => Raise SwaggerPathError
  end.


(** The result of [fill_all_enum_value] as a value: the function always
    returns. *)
Definition filled (depth : nat) (o : pyval) : pyval :=
  match fill_all_enum_value depth o with
  | Return v => v
  | Raise _ => o
  end.

(** [define_body_from_annots].  [Body_ d m] stands for
    [Body(d, pydantic_model=m)], the constructor of
    [flask_toolkits/params.py]. *)
Definition define_body_from_annots (Body_ : pyval -> annot -> param_object)
           (default_value : param_object) (a : annot) : result param_object :=
  pydantic_model <- get_pydantic_from_annots a ;;
  match pydantic_model with
  | Some m => Return (Body_ (default default_value) m)
  | None => Return default_value
  end.

(** The alias table a parameter of class [c] is entered in by
    [get_params_aliases]. *)
Definition alias_table (c : param_class) (al : alias_tables) : dict string :=
  match c with
  | Path => al_path al
  | Header => al_header al
  | Query => al_query al
  | Body => al_body al
  | Form | FormURLEncoded => al_form al
  | File => al_file al
  end.

Definition same_table (c c' : param_class) : bool :=
  match c, c' with
  | Form, FormURLEncoded | FormURLEncoded, Form => true
  | _, _ => param_class_eqb c c'
  end.

(** A request that differs in the query string and the headers only. *)
Definition set_args_headers (a h : list (string * string)) (r : request)
  : request :=
  mk_request (method r) a h (form r) (files r) (json r).

(** Is [a] the aliased name of a key of [variables] in the table? *)
Definition aliased (tbl : dict string) (variables : list string) (a : string)
  : bool :=
  existsb (String.eqb a) (convert_alias_to_name tbl variables).

(* ------------------------------------------------------------------ *)
(** *** The wrapped handler *)



(* ------------------------------------------------------------------ *)
(** *** Endpoint descriptors *)

(** The response table of [EndpointDefinition.__init__] when none is
    given. *)
Definition default_responses : pyval :=
  VDict
    [("200",
      VDict [("description", VStr "Successful Response");
             ("content",
              VDict [("application/json",
                      VDict [("schema", VDict [])])])]);
     ("422",
      VDict [("description", VStr "ValidationError");
             ("content",
              VDict [("application/json",
                      VDict [("example",
                              VDict [("detail",
                                      VList
                                        [VDict
                                           [("loc", VList [VStr "string"]);
                                            ("msg", VStr "string");
                                            ("type", VStr "string")]])])])])])
    ]%string.

(** [EndpointDefinition]: the attributes set by [__init__]. *)
Record EndpointDefinition : Type := mk_endpoint {
  ep_rule : str;
  ep_method : string;
  ep_paired_params : dict ParamSignature;
  ep_tags : list string;
  ep_summary : string;
  ep_description : string;
  ep_response_description : string;
  ep_responses : pyval;
  ep_auto_swagger : bool;
  ep_custom_swagger : pyval;
  ep_pydantic_model : pydantic_schema;
  ep_security : option string;
  ep_aliases : alias_tables
}.

(** The router attributes and the arguments of [route] that the descriptors
    are built from. *)
Record route_options : Type := mk_options {
  url_prefix : str;
  router_tags : list string;
  enable_auto_swagger : bool;
  opt_tags : list string;
  opt_summary : option string;
  opt_description : option string;
  opt_response_description : string;
  opt_responses : pyval;
  opt_auto_swagger : bool;
  opt_custom_swagger : pyval;
  router_security : option string;
  opt_security : option string;
  opt_methods : option (list string)
}.

(** [x if x else name] for an optional string. *)
Definition or_name (x : option string) (name : string) : string :=
  match x with
  | Some s => if String.eqb s "" then name else s
  | None => name
  end.

(** The descriptor built for one method (lines 546-560, with
    [EndpointDefinition.__init__]). *)
Definition make_endpoint (o : route_options) (func_name : string) (rule : str)
           (paired_params : dict ParamSignature)
           (pydantic_model : pydantic_schema) (aliases : alias_tables)
           (http_method : string) : EndpointDefinition :=
  mk_endpoint
    (validate_rule_for_swagger (url_prefix o ++ rule))
    (lower http_method)
    paired_params
    (match opt_tags o ++ router_tags o with
     | [] => ["default"%string]
     | tags => tags
     end)
    (or_name (opt_summary o) func_name)
    (or_name (opt_description o) func_name)
    (opt_response_description o)
    (if truthy (opt_responses o) then opt_responses o else default_responses)
    (enable_auto_swagger o && opt_auto_swagger o)
    (opt_custom_swagger o)
    pydantic_model
    (match opt_security o with
     | Some s => Some s
     | None => router_security o
     end)
    aliases.

(** The two lists a descriptor is appended to: the router's
    [defined_endpoints] and the class-wide
    [EndpointDefinition._all_endpoints]. *)
Record endpoint_lists : Type := mk_lists {
  defined_endpoints : list EndpointDefinition;
  _all_endpoints : list EndpointDefinition
}.

(** How the loop over the methods ends: normally, or with the exception
    raised for a method that is not available. *)
Inductive registration : Type :=
| Registered
| InvalidMethod (http_method : string).

(** Lines 540-561: the loop over [options.get("methods", ["GET"])]. *)
Fixpoint register_methods (o : route_options) (func_name : string)
         (rule : str) (paired_params : dict ParamSignature)
         (pydantic_model : pydantic_schema) (aliases : alias_tables)
         (methods : list string) (ls : endpoint_lists)
  : endpoint_lists * registration :=
  match methods with
  | [] => (ls, Registered)
  | http_method :: rest =>
      if existsb (String.eqb (upper http_method)) available_methods then
        let ep := make_endpoint o func_name rule paired_params pydantic_model
                                aliases http_method in
        register_methods o func_name rule paired_params pydantic_model
          aliases rest
          (mk_lists (defined_endpoints ls ++ [ep]) (_all_endpoints ls ++ [ep]))
      else (ls, InvalidMethod http_method)
  end.

Definition register_swagger (o : route_options) (func_name : string)
           (rule : str) (paired_params : dict ParamSignature)
           (pydantic_model : pydantic_schema) (aliases : alias_tables)
           (ls : endpoint_lists) : endpoint_lists * registration :=
  register_methods o func_name rule paired_params pydantic_model aliases
    (match opt_methods o with
     | Some methods => methods
     | None => ["GET"%string]
     end)
    ls.

Definition valid_method (http_method : string) : bool :=
  existsb (String.eqb (upper http_method)) available_methods.

(** Options of a route of a router mounted at [/api], everything else at
    its default. *)
Definition plain_options (methods : option (list string)) : route_options :=
  mk_options (s2l "/api") [] true [] None None "Successful Response" VNone
             true VNone None None methods.

(* ------------------------------------------------------------------ *)
(** *** The dependency lists as objects

    [APIRouter.__init__] stores the list it is given, and its default
    argument is one list object made when the class is defined;
    [update_dependencies] appends to the stored list in place. *)

(** A list object: the default of [__init__], or a list of the caller. *)
Inductive list_ref : Type :=
| DefaultDependencies
| CallerList (n : nat).

Definition list_ref_eqb (a b : list_ref) : bool :=
  match a, b with
  | DefaultDependencies, DefaultDependencies => true
  | CallerList n, CallerList m => Nat.eqb n m
  | _, _ => false
  end.

(** [self.dependecies = dependencies] in [__init__]. *)
Definition init_dependecies (dependencies : option list_ref) : list_ref :=
  match dependencies with
  | Some l => l
  | None => DefaultDependencies
  end.

(** [update_dependencies] on the store: the router's list object is
    updated in place. *)
Definition update_dependencies_in_place {func : Type}
           (func_eqb : func -> func -> bool)
           (store : list_ref -> list (dependency func)) (self : list_ref)
           (stack : list (dependency func))
  : list_ref -> list (dependency func) :=
  fun l => if list_ref_eqb l self
           then update_dependencies func_eqb (store self) stack
           else store l.

(* ================================================================== *)
(** * Properties *)

(** ** Loops and the result monad *)

Lemma foldM_app {A S : Type} (body : S -> A -> result S) xs ys s :
  foldM body (xs ++ ys) s = (s' <- foldM body xs s ;; foldM body ys s').
Proof.
  revert s; induction xs as [|x xs IH]; intros s; simpl.
  - reflexivity.
  - destruct (body s x) as [s'|e]; simpl; [apply IH | reflexivity].
Qed.

Lemma bind_return {A B : Type} (m : result A) (k : A -> result B) b :
  bind m k = Return b -> exists a, m = Return a /\ k a = Return b.
Proof.
  destruct m as [a|e]; simpl; intros H; [eauto | discriminate].
Qed.

Lemma ascii_eqb_refl c : Ascii.eqb c c = true.
Proof. apply Ascii.eqb_eq; reflexivity. Qed.

Lemma ascii_eqb_false (a b : ascii) : a <> b -> Ascii.eqb a b = false.
Proof. intros H; apply Ascii.eqb_neq; exact H. Qed.

(** ** Literal patterns and [findall] *)

Lemma prefixb_app p rest : prefixb p (p ++ rest) = true.
Proof.
  induction p as [|a p IH]; simpl; [reflexivity|].
  rewrite ascii_eqb_refl; exact IH.
Qed.

Lemma prefixb_split p s :
  prefixb p s = true -> s = p ++ skipn (length p) s.
Proof.
  revert s; induction p as [|a p IH]; intros s H; simpl in *.
  - reflexivity.
  - destruct s as [|b s]; [discriminate|].
    apply andb_true_iff in H as [Hab Hp].
    apply Ascii.eqb_eq in Hab; subst b.
    f_equal; apply IH; exact Hp.
Qed.

Lemma match_here_literal p s :
  match_here (map ReChar p) s =
  if prefixb p s then Some (length p) else None.
Proof.
  revert s; induction p as [|a p IH]; intros s; simpl.
  - reflexivity.
  - destruct s as [|b s]; [reflexivity|].
    rewrite IH.
    destruct (Ascii.eqb b a) eqn:E.
    + apply Ascii.eqb_eq in E; subst b; rewrite ascii_eqb_refl; simpl.
      destruct (prefixb p s); reflexivity.
    + assert (Ascii.eqb a b = false) as ->.
      { apply Ascii.eqb_neq; intros ->; rewrite ascii_eqb_refl in E;
        discriminate. }
      reflexivity.
Qed.

Lemma key_pattern_literal key :
  key_pattern key = map ReChar (placeholder key).
Proof.
  unfold key_pattern, placeholder; simpl; rewrite map_app; reflexivity.
Qed.

Lemma occurrences_skip_run p t rest :
  ~ In ch_lt t ->
  occurrences (ch_lt :: p) (t ++ rest) = occurrences (ch_lt :: p) rest.
Proof.
  induction t as [|c t IH]; intros Hnot.
  - reflexivity.
  - cbn [app occurrences prefixb].
    assert (Ascii.eqb ch_lt c = false) as ->.
    { apply ascii_eqb_false; intros Heq; apply Hnot; left; symmetry;
      exact Heq. }
    cbn [andb Nat.add]; apply IH; intros Hin; apply Hnot; right; exact Hin.
Qed.

(** Occurrences of [<key>] cannot overlap when [key] has no [<]. *)
Lemma occurrences_placeholder_step key s :
  ~ In ch_lt key ->
  prefixb (placeholder key) s = true ->
  occurrences (placeholder key) s =
  S (occurrences (placeholder key) (skipn (length (placeholder key)) s)).
Proof.
  intros Hkey Hp.
  pose proof (prefixb_split _ _ Hp) as Hs.
  set (rest := skipn (length (placeholder key)) s) in *.
  rewrite Hs; clearbody rest; clear Hs Hp s.
  unfold placeholder at 2; simpl app.
  change (occurrences (placeholder key) (ch_lt :: (key ++ [ch_gt]) ++ rest))
    with ((if prefixb (placeholder key) (placeholder key ++ rest)
           then 1 else 0)
          + occurrences (placeholder key) ((key ++ [ch_gt]) ++ rest)).
  rewrite prefixb_app; simpl Nat.add; f_equal.
  unfold placeholder; apply occurrences_skip_run.
  intros Hin; apply in_app_or in Hin as [Hin|Hin]; [exact (Hkey Hin)|].
  destruct Hin as [Hin|[]]; discriminate Hin.
Qed.

Lemma findall_aux_placeholder key :
  ~ In ch_lt key ->
  forall fuel s, length s < fuel ->
    length (findall_aux fuel (map ReChar (placeholder key)) s) =
    occurrences (placeholder key) s.
Proof.
  intros Hkey; induction fuel as [|fuel IH]; intros s Hlen; [lia|].
  cbn [findall_aux]; rewrite match_here_literal.
  destruct (prefixb (placeholder key) s) eqn:Hp.
  - rewrite occurrences_placeholder_step by assumption.
    assert (length (placeholder key) = S (S (length key))) as Hl.
    { unfold placeholder; simpl; rewrite length_app; simpl; lia. }
    pose proof (prefixb_split _ _ Hp) as Hs.
    apply (f_equal (@length ascii)) in Hs; rewrite length_app in Hs.
    remember (length (placeholder key)) as n eqn:Hn.
    destruct n as [|n]; [discriminate Hl|].
    cbn [length]; f_equal; apply IH.
    rewrite length_skipn in *; lia.
  - destruct s as [|c s].
    + reflexivity.
    + cbn [occurrences]; rewrite Hp; cbn [Nat.add].
      apply IH; simpl in Hlen; lia.
Qed.

Lemma ident_char_not_lt key :
  forallb ident_char key = true -> ~ In ch_lt key.
Proof.
  intros H Hin.
  rewrite forallb_forall in H; specialize (H _ Hin); discriminate H.
Qed.

(** C4.  For a parameter name [key] and a pattern [path],
    [check_params_in_path] returns true when [<key>] occurs exactly once in
    the pattern, false when it does not occur, and raises the
    path-configuration error [SwaggerPathError] when it occurs more than
    once; the HTTP method plays no part. *)
Theorem check_params_in_path_spec (key path : str) :
  identifier key ->
  check_params_in_path key path =
  match occurrences (placeholder key) path with
  | 0 => Return false
  | 1 => Return true
  | _ => Raise SwaggerPathError
  end.
Proof.
  intros [_ Hid].
  unfold check_params_in_path, findall.
  rewrite key_pattern_literal.
  rewrite findall_aux_placeholder by (auto using ident_char_not_lt).
  destruct (occurrences (placeholder key) path) as [|[|n]]; reflexivity.
Qed.

Lemma check_params_in_path_spec_witness :
  identifier (s2l "id")
  /\ check_params_in_path (s2l "id") (s2l "/items/<id>/sub/<id>")
     = Raise SwaggerPathError
  /\ check_params_in_path (s2l "id") (s2l "/items/<id>/sub/<idx>")
     = Return true
  /\ check_params_in_path (s2l "id") (s2l "/items/<int:id>")
     = Return false.
Proof.
  assert (Hid : identifier (s2l "id")).
  { split; [discriminate | reflexivity]. }
  split; [exact Hid|].
  split; [|split].
  - rewrite (check_params_in_path_spec _ (s2l "/items/<id>/sub/<id>") Hid).
    reflexivity.
  - rewrite (check_params_in_path_spec _ (s2l "/items/<id>/sub/<idx>") Hid).
    reflexivity.
  - rewrite (check_params_in_path_spec _ (s2l "/items/<int:id>") Hid).
    reflexivity.
Defined.

(** ** The rewriting loop of [validate_rule] on well-formed patterns *)

Lemma last_opt_snoc {A : Type} (l : list A) x : last_opt (l ++ [x]) = Some x.
Proof. unfold last_opt; rewrite rev_app_distr; reflexivity. Qed.

Lemma set_last_snoc {A : Type} (l : list A) x v :
  set_last (l ++ [x]) v = l ++ [v].
Proof. unfold set_last; rewrite removelast_last; reflexivity. Qed.

Lemma count_char_absent c s : ~ In c s -> count_char c s = 0.
Proof. intros H; apply count_occ_not_In; exact H. Qed.

Lemma strip_type_untyped name : ~ In ch_colon name -> strip_type name = name.
Proof.
  intros H; unfold strip_type; rewrite count_char_absent by exact H.
  reflexivity.
Qed.

Lemma index_char_first c ty name :
  ~ In c ty -> index_char c (ty ++ c :: name) = Some (length ty).
Proof.
  induction ty as [|x ty IH]; intros H; cbn [app index_char length].
  - rewrite ascii_eqb_refl; reflexivity.
  - rewrite ascii_eqb_false.
    + rewrite IH; [reflexivity|]. intros Hin; apply H; right; exact Hin.
    + intros Heq; apply H; left; exact Heq.
Qed.

Lemma strip_type_typed ty name :
  ~ In ch_colon ty -> strip_type (ty ++ [ch_colon] ++ name) = name.
Proof.
  intros H; unfold strip_type, count_char.
  rewrite count_occ_app; cbn [app].
  rewrite count_occ_cons_eq by reflexivity.
  replace (_ + S _ =? 0) with false by (symmetry; apply Nat.eqb_neq; lia).
  rewrite index_char_first by exact H.
  change (S (length ty)) with (1 + length ty).
  rewrite <- skipn_skipn.
  rewrite skipn_app, skipn_all, Nat.sub_diag; reflexivity.
Qed.

Lemma strip_type_body type name :
  wf_segment (Placeholder type name) ->
  strip_type (placeholder_body type name) = name.
Proof.
  destruct type as [ty|]; simpl.
  - intros [[_ Hty] _]; apply strip_type_typed; exact Hty.
  - intros [_ Hn]; apply strip_type_untyped; exact Hn.
Qed.

Lemma no_brackets_body type name :
  wf_segment (Placeholder type name) ->
  no_brackets (placeholder_body type name).
Proof.
  destruct type as [ty|]; simpl.
  - intros [[[Hl1 Hg1] _] [[Hl2 Hg2] _]]; split; intros Hin;
      apply in_app_or in Hin as [Hin|[Hin|Hin]]; try discriminate Hin; tauto.
  - intros [H _]; exact H.
Qed.

Lemma render_placeholder type name :
  render_segment (Placeholder type name) =
  [ch_lt] ++ placeholder_body type name ++ [ch_gt].
Proof.
  destruct type as [ty|]; simpl; [|reflexivity].
  rewrite <- app_assoc; reflexivity.
Qed.

Lemma vr_text t : no_brackets t ->
  forall nr sp,
    foldM vr_step t (mk_vr nr false sp) = Return (mk_vr (nr ++ t) false sp).
Proof.
  induction t as [|c t IH]; intros [Hl Hg] nr sp; cbn [foldM].
  - rewrite app_nil_r; reflexivity.
  - unfold vr_step at 1; cbn [new_rule start_write_path start_path].
    rewrite (ascii_eqb_false c ch_lt), (ascii_eqb_false c ch_gt).
    + cbn [negb bind]. rewrite IH.
      * rewrite <- app_assoc; reflexivity.
      * split; intros Hin; [apply Hl | apply Hg]; right; exact Hin.
    + intros ->; apply Hg; left; reflexivity.
    + intros ->; apply Hl; left; reflexivity.
Qed.

Lemma vr_inside body : no_brackets body ->
  forall nr sp cur,
    foldM vr_step body (mk_vr nr true (sp ++ [cur])) =
    Return (mk_vr nr true (sp ++ [cur ++ body])).
Proof.
  induction body as [|c body IH]; intros [Hl Hg] nr sp cur; cbn [foldM].
  - rewrite app_nil_r; reflexivity.
  - unfold vr_step at 1; cbn [new_rule start_write_path start_path].
    rewrite (ascii_eqb_false c ch_lt), (ascii_eqb_false c ch_gt).
    + cbn [negb]. rewrite last_opt_snoc, set_last_snoc. cbn [bind].
      rewrite IH.
      * rewrite <- app_assoc; reflexivity.
      * split; intros Hin; [apply Hl | apply Hg]; right; exact Hin.
    + intros ->; apply Hg; left; reflexivity.
    + intros ->; apply Hl; left; reflexivity.
Qed.

Lemma vr_placeholder body : no_brackets body ->
  forall nr sp,
    foldM vr_step ([ch_lt] ++ body ++ [ch_gt]) (mk_vr nr false sp) =
    Return (mk_vr (nr ++ [ch_lt] ++ strip_type body ++ [ch_gt]) false
                  (sp ++ [strip_type body])).
Proof.
  intros Hb nr sp.
  cbn [app foldM]. unfold vr_step at 1.
  rewrite ascii_eqb_refl; cbn [bind new_rule start_path].
  rewrite foldM_app, (vr_inside body Hb); cbn [bind app foldM].
  unfold vr_step; cbn [new_rule start_write_path start_path].
  rewrite (ascii_eqb_false ch_gt ch_lt) by discriminate.
  rewrite ascii_eqb_refl, last_opt_snoc, set_last_snoc; cbn [bind].
  do 3 f_equal.
  unfold strip_type; destruct (count_char ch_colon body =? 0); reflexivity.
Qed.

Lemma vr_loop_wf segs : Forall wf_segment segs ->
  forall nr sp,
    foldM vr_step (render segs) (mk_vr nr false sp) =
    Return (mk_vr (nr ++ untyped segs) false (sp ++ placeholder_names segs)).
Proof.
  induction 1 as [|seg segs Hseg _ IH]; intros nr sp.
  - simpl; rewrite !app_nil_r; reflexivity.
  - unfold render, untyped, placeholder_names in *; cbn [flat_map].
    rewrite foldM_app.
    destruct seg as [t|type name].
    + cbn [render_segment untyped_segment]; rewrite (vr_text t Hseg).
      cbn [bind app]; rewrite IH, <- app_assoc; reflexivity.
    + rewrite render_placeholder.
      rewrite (vr_placeholder _ (no_brackets_body _ _ Hseg)).
      rewrite (strip_type_body _ _ Hseg).
      cbn [bind untyped_segment]; rewrite IH, <- !app_assoc; reflexivity.
Qed.

(** On a well-formed pattern [validate_rule] can only fail in its
    assertion, and otherwise returns the pattern without type prefixes. *)
Lemma validate_rule_wf segs : Forall wf_segment segs ->
  validate_rule (render segs) =
  (_ <- assert_single_type (findall placeholder_span (render segs)) ;;
   Return (untyped segs)).
Proof.
  intros Hwf; unfold validate_rule, vr_init.
  rewrite (vr_loop_wf segs Hwf); reflexivity.
Qed.

(** ** The bracket-to-brace rewrite *)

Lemma fold_left_app_acc {A B : Type} (f : A -> B -> A) xs ys a :
  fold_left f (xs ++ ys) a = fold_left f ys (fold_left f xs a).
Proof. apply fold_left_app. Qed.

Lemma swagger_text t : ~ In ch_lt t ->
  forall acc, fold_left swagger_step t (false, acc) = (false, acc ++ t).
Proof.
  induction t as [|c t IH]; intros Hl acc; cbn [fold_left].
  - rewrite app_nil_r; reflexivity.
  - unfold swagger_step at 2.
    rewrite (ascii_eqb_false c ch_lt).
    + cbn [negb andb]. rewrite IH.
      * rewrite <- app_assoc; reflexivity.
      * intros Hin; apply Hl; right; exact Hin.
    + intros ->; apply Hl; left; reflexivity.
Qed.

Lemma swagger_inside name : ~ In ch_gt name ->
  forall acc, fold_left swagger_step name (true, acc) = (true, acc ++ name).
Proof.
  induction name as [|c name IH]; intros Hg acc; cbn [fold_left].
  - rewrite app_nil_r; reflexivity.
  - unfold swagger_step at 2.
    rewrite (ascii_eqb_false c ch_gt).
    + cbn [negb andb]. rewrite IH.
      * rewrite <- app_assoc; reflexivity.
      * intros Hin; apply Hg; right; exact Hin.
    + intros ->; apply Hg; left; reflexivity.
Qed.

Lemma swagger_placeholder name : ~ In ch_gt name ->
  forall acc,
    fold_left swagger_step ([ch_lt] ++ name ++ [ch_gt]) (false, acc) =
    (false, acc ++ [ch_lbrace] ++ name ++ [ch_rbrace]).
Proof.
  intros Hg acc; cbn [app fold_left].
  unfold swagger_step at 2; rewrite ascii_eqb_refl; cbn [negb andb].
  rewrite fold_left_app, (swagger_inside name Hg); cbn [fold_left].
  unfold swagger_step; rewrite ascii_eqb_refl; cbn [negb andb].
  rewrite <- !app_assoc; reflexivity.
Qed.

Lemma wf_segment_name type name :
  wf_segment (Placeholder type name) -> no_brackets name.
Proof. destruct type; unfold wf_segment, plain_name; tauto. Qed.

Lemma swagger_untyped segs : Forall wf_segment segs ->
  forall acc,
    fold_left swagger_step (untyped segs) (false, acc) =
    (false, acc ++ doc_path segs).
Proof.
  induction 1 as [|seg segs Hseg _ IH]; intros acc.
  - simpl; rewrite app_nil_r; reflexivity.
  - unfold untyped, doc_path in *; cbn [flat_map].
    rewrite fold_left_app.
    destruct seg as [t|type name]; cbn [untyped_segment doc_segment].
    + rewrite (swagger_text t (proj1 Hseg)), IH, <- app_assoc; reflexivity.
    + rewrite (swagger_placeholder name (proj2 (wf_segment_name _ _ Hseg))).
      rewrite IH, <- !app_assoc; reflexivity.
Qed.

(** C8.  For a pattern made of text and placeholders [<name>] or
    [<type:name>] that [validate_rule] accepts, the documentation path,
    [validate_rule_for_swagger] of the validated rule, has [{name}] for
    each placeholder, without the type prefix and the colon, and every
    character outside placeholders as it was. *)
Theorem documentation_path_rewrites (segs : list segment) (r : str) :
  Forall wf_segment segs ->
  validate_rule (render segs) = Return r ->
  validate_rule_for_swagger r = doc_path segs.
Proof.
  intros Hwf Hv.
  rewrite (validate_rule_wf segs Hwf) in Hv.
  apply bind_return in Hv as [_ [_ Hr]]; injection Hr as <-.
  unfold validate_rule_for_swagger.
  rewrite (swagger_untyped segs Hwf); reflexivity.
Qed.

Lemma documentation_path_rewrites_witness :
  Forall wf_segment shop_pattern
  /\ validate_rule (render shop_pattern) = Return (s2l "/shop/<id>/items")
  /\ validate_rule_for_swagger (s2l "/shop/<id>/items")
     = s2l "/shop/{id}/items".
Proof.
  assert (Hwf : Forall wf_segment shop_pattern).
  { repeat constructor; simpl; intuition discriminate. }
  assert (Hv : validate_rule (render shop_pattern)
               = Return (s2l "/shop/<id>/items")) by reflexivity.
  split; [exact Hwf|]. split; [exact Hv|].
  exact (documentation_path_rewrites shop_pattern _ Hwf Hv).
Defined.

(** ** The assertion of [validate_rule] *)

(** The greedy pattern spans from the first [<] to the last [>] of the
    line, so two typed placeholders fall into one match. *)
Lemma findall_two_typed_placeholders :
  findall placeholder_span (s2l "/a/<int:x>/b/<int:y>")
  = [s2l "<int:x>/b/<int:y>"].
Proof. reflexivity. Qed.

(** The rewriting loop itself handles several typed placeholders. *)
Lemma vr_loop_two_typed_placeholders :
  foldM vr_step (s2l "/a/<int:x>/b/<int:y>") vr_init
  = Return (mk_vr (s2l "/a/<x>/b/<y>") false [s2l "x"; s2l "y"]).
Proof. reflexivity. Qed.

Lemma match_here_star_cons r x s :
  match_here (ReDotStar :: r) (x :: s) =
  if Ascii.eqb x ch_newline then match_here r (x :: s)
  else match match_here (ReDotStar :: r) s with
       | Some n => Some (S n)
       | None => match_here r (x :: s)
       end.
Proof. reflexivity. Qed.

Lemma match_here_char_cons c r x s :
  match_here (ReChar c :: r) (x :: s) =
  if Ascii.eqb x c then option_map S (match_here r s) else None.
Proof. reflexivity. Qed.

Lemma match_here_star_nil r : match_here (ReDotStar :: r) [] = match_here r [].
Proof. reflexivity. Qed.

(** Without a [>] ahead the run of [.*] cannot be closed. *)
Lemma star_no_gt t :
  ~ In ch_gt t -> match_here [ReDotStar; ReChar ch_gt] t = None.
Proof.
  induction t as [|c t IH]; intros Hg; [reflexivity|].
  rewrite match_here_star_cons, IH
    by (intros Hin; apply Hg; right; exact Hin).
  cbn [match_here].
  rewrite (ascii_eqb_false c ch_gt)
    by (intros ->; apply Hg; left; reflexivity).
  destruct (Ascii.eqb c ch_newline); reflexivity.
Qed.

(** The run of [.*] reaches the last [>] of the line. *)
Lemma star_to_last_gt body tail :
  ~ In ch_newline body -> ~ In ch_gt tail ->
  match_here [ReDotStar; ReChar ch_gt] (body ++ ch_gt :: tail)
  = Some (S (length body)).
Proof.
  intros Hn Hg; induction body as [|c body IH]; cbn [app length].
  - rewrite match_here_star_cons, (star_no_gt tail Hg).
    cbn [match_here]; rewrite ascii_eqb_refl; reflexivity.
  - rewrite match_here_star_cons, IH
      by (intros Hin; apply Hn; right; exact Hin).
    rewrite (ascii_eqb_false c ch_newline)
      by (intros ->; apply Hn; left; reflexivity).
    reflexivity.
Qed.

Lemma placeholder_span_no_gt t :
  ~ In ch_gt t -> match_here placeholder_span t = None.
Proof.
  intros Hg; destruct t as [|c t]; [reflexivity|].
  unfold placeholder_span; rewrite match_here_char_cons.
  destruct (Ascii.eqb c ch_lt); [|reflexivity].
  rewrite (star_no_gt t) by (intros Hin; apply Hg; right; exact Hin).
  reflexivity.
Qed.

Lemma findall_aux_no_gt fuel : forall t,
  ~ In ch_gt t -> findall_aux fuel placeholder_span t = [].
Proof.
  induction fuel as [|fuel IH]; intros t Hg; [reflexivity|].
  cbn [findall_aux]; rewrite placeholder_span_no_gt by exact Hg.
  destruct t as [|c t]; [reflexivity|].
  apply IH; intros Hin; apply Hg; right; exact Hin.
Qed.

Lemma firstn_past_gt (body tail : str) :
  firstn (S (length body)) (body ++ ch_gt :: tail) = body ++ [ch_gt].
Proof.
  induction body as [|c body IH]; [reflexivity|].
  cbn [length app firstn] in *; rewrite IH; reflexivity.
Qed.

Lemma skipn_past_gt (body tail : str) :
  skipn (S (length body)) (body ++ ch_gt :: tail) = tail.
Proof.
  induction body as [|c body IH]; [reflexivity|].
  cbn [length app skipn] in *; exact IH.
Qed.

(** [findall] on a line: one match, from the first [<] to the last [>]. *)
Lemma findall_placeholder_span pre body tail :
  ~ In ch_lt pre -> ~ In ch_newline body -> ~ In ch_gt tail ->
  findall placeholder_span (pre ++ ch_lt :: body ++ ch_gt :: tail)
  = [ch_lt :: body ++ [ch_gt]].
Proof.
  intros Hl Hn Hg; unfold findall.
  rewrite length_app.
  generalize (length (ch_lt :: body ++ ch_gt :: tail)); intros m.
  induction pre as [|c pre IH]; cbn [app length Nat.add findall_aux].
  - assert (match_here placeholder_span (ch_lt :: body ++ ch_gt :: tail)
            = Some (S (S (length body)))) as ->.
    { unfold placeholder_span; rewrite match_here_char_cons.
      rewrite ascii_eqb_refl.
      rewrite (star_to_last_gt body tail Hn Hg); reflexivity. }
    cbv beta iota; rewrite firstn_cons, skipn_cons.
    rewrite firstn_past_gt, skipn_past_gt.
    rewrite findall_aux_no_gt by exact Hg; reflexivity.
  - assert (match_here placeholder_span
              (c :: pre ++ ch_lt :: body ++ ch_gt :: tail) = None) as ->.
    { unfold placeholder_span; rewrite match_here_char_cons.
      rewrite (ascii_eqb_false c ch_lt); [reflexivity|].
      intros ->; apply Hl; left; reflexivity. }
    apply IH; intros Hin; apply Hl; right; exact Hin.
Qed.

Lemma vr_loop_raises_IndexError s : forall st e,
  foldM vr_step s st = Raise e -> e = IndexError.
Proof.
  induction s as [|c s IH]; intros st e H; [discriminate H|].
  cbn [foldM] in H.
  destruct (vr_step st c) as [st'|e'] eqn:Hstep; cbn [bind] in H.
  - exact (IH _ _ H).
  - injection H as <-.
    unfold vr_step in Hstep.
    destruct (Ascii.eqb c ch_lt); [discriminate|].
    destruct (Ascii.eqb c ch_gt).
    + destruct (last_opt (start_path st)); congruence.
    + destruct (negb (start_write_path st)); [discriminate|].
      destruct (last_opt (start_path st)); congruence.
Qed.

(** The assertion of [validate_rule] counts the colons between the first
    [<] and the last [>] of the line, not those of each placeholder. *)
Lemma validate_rule_assertion_spans_line pre body tail :
  ~ In ch_lt pre -> ~ In ch_newline body -> ~ In ch_gt tail ->
  (validate_rule (pre ++ ch_lt :: body ++ ch_gt :: tail)
   = Raise AssertionError
   <-> 2 <= count_char ch_colon body).
Proof.
  intros Hl Hn Hg; unfold validate_rule.
  rewrite (findall_placeholder_span pre body tail Hl Hn Hg).
  cbn [assert_single_type].
  assert (count_char ch_colon (ch_lt :: body ++ [ch_gt])
          = count_char ch_colon body) as ->.
  { unfold count_char.
    rewrite count_occ_cons_neq by discriminate.
    rewrite count_occ_app; cbn [count_occ].
    destruct (ascii_dec ch_gt ch_colon); [discriminate | lia]. }
  destruct (count_char ch_colon body) as [|[|n]]; cbn [Nat.eqb orb bind].
  - split; [|lia]. intros H.
    destruct (foldM vr_step _ vr_init) eqn:E; cbn [bind] in H;
      [discriminate|].
    apply vr_loop_raises_IndexError in E; congruence.
  - split; [|lia]. intros H.
    destruct (foldM vr_step _ vr_init) eqn:E; cbn [bind] in H;
      [discriminate|].
    apply vr_loop_raises_IndexError in E; congruence.
  - split; [lia | reflexivity].
Qed.

(** C3 (the code departs from the claim).  A pattern with two typed
    placeholders on one line fails the assertion of [validate_rule], also
    when each of them has a single type qualifier and whatever text
    surrounds them: rejection does not take a placeholder with more than
    one qualifier. *)
Theorem validate_rule_rejects_typed_pair
        (pre ty1 name1 mid ty2 name2 tail : str) :
  ~ In ch_lt pre -> ~ In ch_gt tail ->
  ~ In ch_newline (ty1 ++ name1 ++ mid ++ ty2 ++ name2) ->
  validate_rule
    (pre ++ render_segment (Placeholder (Some ty1) name1) ++ mid
         ++ render_segment (Placeholder (Some ty2) name2) ++ tail)
  = Raise AssertionError.
Proof.
  intros Hl Hg Hn.
  set (body := ty1 ++ [ch_colon] ++ name1 ++ [ch_gt] ++ mid ++ [ch_lt]
                   ++ ty2 ++ [ch_colon] ++ name2).
  replace (pre ++ render_segment (Placeholder (Some ty1) name1) ++ mid
               ++ render_segment (Placeholder (Some ty2) name2) ++ tail)
    with (pre ++ ch_lt :: body ++ ch_gt :: tail).
  - apply validate_rule_assertion_spans_line; try assumption.
    + subst body; intros Hin.
      repeat (apply in_app_or in Hin as [Hin|Hin];
              [try (destruct Hin as [Hin|[]]; discriminate Hin);
               apply Hn; repeat (apply in_or_app; (left; exact Hin) || right);
               try exact Hin |]).
      apply Hn; repeat (apply in_or_app; right); exact Hin.
    + subst body; unfold count_char.
      rewrite !count_occ_app; cbn [count_occ].
      destruct (ascii_dec ch_colon ch_colon); [lia | congruence].
  - subst body; cbn [render_segment app].
    repeat (rewrite <- ?app_assoc; cbn [app]); reflexivity.
Qed.

Lemma validate_rule_rejects_typed_pair_witness :
  validate_rule (s2l "/a/<int:x>/b/<int:y>") = Raise AssertionError.
Proof.
  apply (validate_rule_rejects_typed_pair
           (s2l "/a/") (s2l "int") (s2l "x") (s2l "/b/")
           (s2l "int") (s2l "y") []);
    simpl; intuition discriminate.
Defined.

(** Each typed placeholder alone is accepted. *)
Lemma validate_rule_accepts_one_typed_placeholder :
  validate_rule (s2l "/a/<int:x>") = Return (s2l "/a/<x>")
  /\ validate_rule (s2l "/b/<int:y>") = Return (s2l "/b/<y>").
Proof. split; reflexivity. Qed.

(** ** Enum normalisation *)

Lemma try_except_returns {A : Type} (m : result A) (a : A) :
  exists v, try_except m (Return a) = Return v.
Proof. destruct m as [v|e]; simpl; eauto. Qed.

Lemma fill_all_enum_value_unfold depth o :
  fill_all_enum_value depth o =
  try_except
    (match o with
     | VDict d =>
         datas <- foldM
           (fun datas k =>
              item <- getitem d k ;;
              match depth with
              | 0 => Raise RecursionError
              | S depth' =>
                  v <- fill_all_enum_value depth' item ;;
                  Return (dict_set k v datas)
              end)
           (dict_keys d) [] ;;
         Return (VDict datas)
     | VEnum _ _ value => Return value
     | _ => Return o
     end)
    (Return o).
Proof. destruct depth; reflexivity. Qed.

(** C9.  [fill_all_enum_value] returns for every input, whatever the stack
    depth left, and returns the input itself when it is neither a
    dictionary nor a member of an enumerated type. *)
Theorem fill_all_enum_value_total (depth : nat) (o : pyval) :
  (exists v, fill_all_enum_value depth o = Return v)
  /\ (is_dict o = false -> is_enum o = false ->
      fill_all_enum_value depth o = Return o).
Proof.
  rewrite fill_all_enum_value_unfold; split.
  - apply try_except_returns.
  - destruct o; simpl; intros Hd He; try reflexivity; discriminate.
Qed.

Lemma fill_all_enum_value_total_witness :
  (exists v, fill_all_enum_value 0
               (VList [VEnum "Color" "RED" (VStr "red")]) = Return v)
  /\ fill_all_enum_value 0 (VList [VEnum "Color" "RED" (VStr "red")])
     = Return (VList [VEnum "Color" "RED" (VStr "red")]).
Proof.
  split.
  - exact (proj1 (fill_all_enum_value_total 0
                    (VList [VEnum "Color" "RED" (VStr "red")]))).
  - exact (proj2 (fill_all_enum_value_total 0
                    (VList [VEnum "Color" "RED" (VStr "red")]))
                 eq_refl eq_refl).
Defined.

Lemma enum_normal_dict d :
  enum_normal (VDict d) =
  VDict (map (fun kv => (fst kv, enum_normal (snd kv))) d).
Proof.
  cbn [enum_normal]; f_equal.
  induction d as [|[k v] d IH]; [reflexivity|].
  cbn [map fst snd]; rewrite <- IH; reflexivity.
Qed.

Lemma dict_depth_entry d k v :
  In (k, v) d -> S (dict_depth v) <= dict_depth (VDict d).
Proof.
  cbn [dict_depth]; intros Hin; apply le_n_S.
  induction d as [|[k0 v0] d IH]; [destruct Hin|].
  destruct Hin as [[= -> ->]|Hin]; [lia|].
  specialize (IH Hin); lia.
Qed.

Lemma unique_keys_entry d k v :
  unique_keys (VDict d) -> In (k, v) d -> unique_keys v.
Proof.
  cbn [unique_keys]; intros [_ Hall] Hin.
  induction d as [|[k0 v0] d IH]; [destruct Hin|].
  destruct Hall as [Hv Hall].
  destruct Hin as [[= -> ->]|Hin]; [exact Hv | exact (IH Hall Hin)].
Qed.

Lemma dict_get_app_fresh {V : Type} (d1 d2 : dict V) k :
  ~ In k (dict_keys d1) -> dict_get k (d1 ++ d2) = dict_get k d2.
Proof.
  induction d1 as [|[k0 v0] d1 IH]; intros Hk; [reflexivity|].
  cbn [app dict_get].
  destruct (String.eqb k0 k) eqn:E.
  - apply String.eqb_eq in E; subst; exfalso; apply Hk; left; reflexivity.
  - apply IH; intros Hin; apply Hk; right; exact Hin.
Qed.

Lemma dict_set_fresh {V : Type} (d : dict V) k v :
  ~ In k (dict_keys d) -> dict_set k v d = d ++ [(k, v)].
Proof.
  induction d as [|[k0 v0] d IH]; intros Hk; [reflexivity|].
  cbn [app dict_set].
  destruct (String.eqb k0 k) eqn:E.
  - apply String.eqb_eq in E; subst; exfalso; apply Hk; left; reflexivity.
  - rewrite IH; [reflexivity|]. intros Hin; apply Hk; right; exact Hin.
Qed.

(** The loop of [fill_all_enum_value] over a dictionary whose values are
    all normalised by the nested calls. *)
Lemma fill_loop (F : pyval -> result pyval) (G : pyval -> pyval) d2 :
  forall d1,
    NoDup (dict_keys (d1 ++ d2)) ->
    (forall k v, In (k, v) d2 -> F v = Return (G v)) ->
    foldM
      (fun datas k =>
         item <- getitem (d1 ++ d2) k ;;
         v <- F item ;;
         Return (dict_set k v datas))
      (dict_keys d2)
      (map (fun kv => (fst kv, G (snd kv))) d1)
    = Return (map (fun kv => (fst kv, G (snd kv))) (d1 ++ d2)).
Proof.
  induction d2 as [|[k v] d2 IH]; intros d1 Hnd HF.
  - rewrite app_nil_r; reflexivity.
  - cbn [dict_keys map fst foldM].
    assert (~ In k (dict_keys d1)) as Hfresh.
    { unfold dict_keys in *; rewrite map_app in Hnd; cbn [map fst] in Hnd.
      apply NoDup_remove_2 in Hnd.
      intros Hin; apply Hnd, in_or_app; left; exact Hin. }
    unfold getitem; rewrite (dict_get_app_fresh d1 _ k Hfresh).
    cbn [dict_get]; rewrite String.eqb_refl; cbn [bind].
    rewrite (HF k v) by (left; reflexivity); cbn [bind].
    rewrite dict_set_fresh
      by (unfold dict_keys; rewrite map_map; cbn [fst]; exact Hfresh).
    specialize (IH (d1 ++ [(k, v)])).
    rewrite <- app_assoc in IH; cbn [app] in IH.
    rewrite map_app in IH; cbn [map fst snd] in IH.
    apply IH; [exact Hnd|].
    intros k' v' Hin; apply (HF k' v'); right; exact Hin.
Qed.

(** Given a dictionary, and stack depth for its nesting,
    [fill_all_enum_value] replaces the enum members at every level of
    nested dictionaries. *)
Lemma fill_all_enum_value_nested depth : forall o,
  dict_depth o <= depth -> unique_keys o ->
  fill_all_enum_value depth o = Return (enum_normal o).
Proof.
  induction depth as [|depth IH]; intros o Hd Hu;
    rewrite fill_all_enum_value_unfold;
    destruct o as [| | | | | |d| | |]; try reflexivity.
  - cbn [dict_depth] in Hd; lia.
  - rewrite enum_normal_dict.
    pose proof (fill_loop (fill_all_enum_value depth) enum_normal d []) as HL.
    cbn [app map] in HL; unfold getitem in *.
    rewrite HL; [reflexivity | exact (proj1 Hu) |].
    intros k v Hin; apply IH.
    + pose proof (dict_depth_entry d k v Hin); lia.
    + exact (unique_keys_entry d k v Hu Hin).
Qed.

(** A validated schema instance is not a [dict], so the normalisation
    leaves it, and the enum members it holds, as they are. *)
Lemma fill_all_enum_value_model depth cls fields :
  fill_all_enum_value depth (VModel cls fields) = Return (VModel cls fields).
Proof. rewrite fill_all_enum_value_unfold; reflexivity. Qed.

(** ** Dictionaries *)

Section DictFacts.
Context {V : Type}.
Implicit Types (d e : dict V) (k : string) (v : V).
Implicit Types (ks : list string) (keep : string -> bool).

Lemma dict_get_set_same k v d : dict_get k (dict_set k v d) = Some v.
Proof.
  induction d as [|[k' v'] d IH]; simpl.
  - rewrite String.eqb_refl; reflexivity.
  - destruct (String.eqb k' k) eqn:E; simpl; rewrite E;
      [reflexivity | exact IH].
Qed.

Lemma dict_get_set_other k k' v d :
  k <> k' -> dict_get k (dict_set k' v d) = dict_get k d.
Proof.
  intros Hne; induction d as [|[k0 v0] d IH]; simpl.
  - destruct (String.eqb k' k) eqn:E; [|reflexivity].
    apply String.eqb_eq in E; congruence.
  - destruct (String.eqb k0 k') eqn:E; simpl.
    + apply String.eqb_eq in E; subst k0.
      destruct (String.eqb k' k) eqn:E'; [|reflexivity].
      apply String.eqb_eq in E'; congruence.
    + rewrite IH; reflexivity.
Qed.

Lemma dict_get_set k k' v d :
  dict_get k (dict_set k' v d) =
  if String.eqb k' k then Some v else dict_get k d.
Proof.
  destruct (String.eqb k' k) eqn:E.
  - apply String.eqb_eq in E; subst; apply dict_get_set_same.
  - apply dict_get_set_other; intros ->; rewrite String.eqb_refl in E;
      discriminate.
Qed.

Lemma dict_set_set k v v' d :
  dict_set k v (dict_set k v' d) = dict_set k v d.
Proof.
  induction d as [|[k0 v0] d IH]; simpl.
  - rewrite String.eqb_refl; reflexivity.
  - destruct (String.eqb k0 k) eqn:E; simpl; rewrite E;
      [reflexivity | rewrite IH; reflexivity].
Qed.

(** [d.update(e)] leaves the keys that [e] does not have. *)
Lemma dict_get_update_absent k d e :
  dict_get k e = None -> dict_get k (dict_update d e) = dict_get k d.
Proof.
  unfold dict_update; revert d.
  induction e as [|[k' v'] e IH]; intros d H; simpl in *.
  - reflexivity.
  - destruct (String.eqb k' k) eqn:E; [discriminate|].
    rewrite IH by exact H.
    apply dict_get_set_other; intros ->; rewrite String.eqb_refl in E;
      discriminate.
Qed.

(** The keys of [e] win in [d.update(e)]. *)
Lemma dict_get_update_present k v d e :
  NoDup (dict_keys e) -> dict_get k e = Some v ->
  dict_get k (dict_update d e) = Some v.
Proof.
  unfold dict_update; revert d.
  induction e as [|[k' v'] e IH]; intros d Hnd H; simpl in *.
  - discriminate.
  - inversion Hnd as [|? ? Hnotin Hnd']; subst.
    destruct (String.eqb k' k) eqn:E.
    + apply String.eqb_eq in E; subst k'; injection H as ->.
      assert (dict_get k e = None) as Hnone.
      { clear -Hnotin; induction e as [|[k0 v0] e IH]; simpl in *;
          [reflexivity|].
        destruct (String.eqb k0 k) eqn:E.
        - apply String.eqb_eq in E; subst; tauto.
        - apply IH; tauto. }
      pose proof (dict_get_update_absent k (dict_set k v d) e Hnone) as Hu.
      unfold dict_update in Hu; rewrite Hu; apply dict_get_set_same.
    + apply IH; assumption.
Qed.

Lemma dict_keys_set k v d :
  dict_keys (dict_set k v d) =
  if dict_mem k d then dict_keys d else dict_keys d ++ [k].
Proof.
  unfold dict_mem; induction d as [|[k0 v0] d IH]; simpl.
  - reflexivity.
  - destruct (String.eqb k0 k) eqn:E; simpl; [reflexivity|].
    rewrite IH; destruct (dict_get k d); reflexivity.
Qed.

Lemma dict_get_in_keys k d :
  dict_get k d = None <-> ~ In k (dict_keys d).
Proof.
  induction d as [|[k0 v0] d IH]; simpl.
  - tauto.
  - destruct (String.eqb k0 k) eqn:E.
    + apply String.eqb_eq in E; subst; split; [discriminate | tauto].
    + apply String.eqb_neq in E; rewrite IH; tauto.
Qed.

Lemma dict_set_NoDup k v d :
  NoDup (dict_keys d) -> NoDup (dict_keys (dict_set k v d)).
Proof.
  intros Hnd; rewrite dict_keys_set; unfold dict_mem.
  destruct (dict_get k d) eqn:E; [exact Hnd|].
  apply dict_get_in_keys in E.
  apply NoDup_app.
  - exact Hnd.
  - constructor; [intros [] | constructor].
  - intros x Hx [<-|[]]; exact (E Hx).
Qed.

(** A comprehension holds [f k] exactly for the kept keys of [ks]. *)
Lemma dict_comp_fold ks keep (f : string -> V) (acc : dict V) k :
  dict_get k
    (fold_left (fun (acc : dict V) x =>
                  if keep x then dict_set x (f x) acc else acc)
               ks acc) =
  if existsb (String.eqb k) ks && keep k then Some (f k)
  else dict_get k acc.
Proof.
  revert acc; induction ks as [|k0 ks IH]; intros acc; simpl.
  - reflexivity.
  - rewrite IH.
    destruct (existsb (String.eqb k) ks && keep k) eqn:E.
    + rewrite andb_true_iff in E; destruct E as [-> ->].
      rewrite orb_true_r; reflexivity.
    + destruct (String.eqb k k0) eqn:Ek; simpl.
      * apply String.eqb_eq in Ek; subst k0.
        destruct (keep k); [apply dict_get_set_same|].
        rewrite andb_false_r in *; reflexivity.
      * rewrite E.
        destruct (keep k0); [|reflexivity].
        apply dict_get_set_other; intros ->; rewrite String.eqb_refl in Ek;
          discriminate.
Qed.

Lemma dict_get_comp ks keep (f : string -> V) k :
  dict_get k (dict_comp ks keep f) =
  if existsb (String.eqb k) ks && keep k then Some (f k) else None.
Proof. unfold dict_comp; rewrite dict_comp_fold; reflexivity. Qed.

Lemma dict_comp_NoDup ks keep (f : string -> V) :
  NoDup (dict_keys (dict_comp ks keep f)).
Proof.
  unfold dict_comp.
  assert (forall acc : dict V, NoDup (dict_keys acc) ->
            NoDup (dict_keys
              (fold_left
                 (fun (acc : dict V) x =>
                    if keep x then dict_set x (f x) acc else acc)
                 ks acc))) as H.
  { induction ks as [|k0 ks IH]; intros acc Hacc; simpl; [exact Hacc|].
    apply IH; destruct (keep k0); auto using dict_set_NoDup. }
  apply H; constructor.
Qed.

Lemma existsb_eqb_In k ks : existsb (String.eqb k) ks = true <-> In k ks.
Proof.
  rewrite existsb_exists; split.
  - intros [x [Hin E]]; apply String.eqb_eq in E; subst; exact Hin.
  - intros Hin; exists k; split; [exact Hin | apply String.eqb_refl].
Qed.
End DictFacts.

(** ** The query step *)

Lemma to_dict_fold (m : list (string * string)) (acc : dict pyval) k :
  dict_get k
    (fold_left
       (fun (acc : dict pyval) kv =>
          if dict_mem (fst kv) acc then acc
          else dict_set (fst kv) (VStr (snd kv)) acc)
       m acc) =
  match dict_get k acc with
  | Some v => Some v
  | None => option_map VStr (dict_get k m)
  end.
Proof.
  revert acc; induction m as [|[k0 s0] m IH]; intros acc; simpl.
  - destruct (dict_get k acc); reflexivity.
  - rewrite IH; unfold dict_mem.
    destruct (dict_get k0 acc) eqn:E0.
    + destruct (dict_get k acc) eqn:Ek; [reflexivity|].
      destruct (String.eqb k0 k) eqn:E; [|reflexivity].
      apply String.eqb_eq in E; congruence.
    + rewrite dict_get_set.
      destruct (String.eqb k0 k) eqn:E.
      * apply String.eqb_eq in E; subst k0; rewrite E0; reflexivity.
      * reflexivity.
Qed.

(** [to_dict] keeps the first value of every query parameter. *)
Lemma dict_get_to_dict m k :
  dict_get k (to_dict m) = option_map VStr (dict_get k m).
Proof. unfold to_dict; rewrite to_dict_fold; reflexivity. Qed.

Lemma in_convert_alias_to_name tbl input_name a :
  In a (convert_alias_to_name tbl input_name) <->
  exists k, In k input_name /\ dict_get k tbl = Some a.
Proof.
  unfold convert_alias_to_name; rewrite in_flat_map; split.
  - intros [k [Hin Ha]]; exists k; split; [exact Hin|].
    destruct (dict_get k tbl) as [a'|]; [|destruct Ha].
    destruct Ha as [->|[]]; reflexivity.
  - intros [k [Hin Hk]]; exists k; split; [exact Hin|].
    rewrite Hk; left; reflexivity.
Qed.

Lemma dict_get_query_kwargs r aliases variables a :
  dict_get a (query_kwargs r aliases variables) =
  if existsb (String.eqb a)
       (convert_alias_to_name (al_query aliases) variables)
  then option_map VStr (dict_get a (args r))
  else None.
Proof.
  unfold query_kwargs; rewrite dict_get_comp; unfold dict_mem.
  rewrite dict_get_to_dict.
  destruct (existsb _ _); simpl; [|reflexivity].
  destruct (dict_get a (args r)); reflexivity.
Qed.

(** C7, as the code has it.  For every binding key of the schema that the
    query table maps to an aliased name present among the query
    parameters, the query value (the first one received) is merged into the
    working set under the aliased name, which is the binding key when no
    alias is declared; and the merge leaves every key that is not such an
    aliased name as the path values seeded it. *)
Theorem query_merge_under_alias (paths : dict pyval) (r : request)
        (aliases : alias_tables) (variables : list string) :
  (forall k a s,
      In k variables ->
      dict_get k (al_query aliases) = Some a ->
      dict_get a (args r) = Some s ->
      dict_get a (kwargs_after_query paths r aliases variables)
      = Some (VStr s))
  /\ (forall k,
         ~ In k (present_query_names r aliases variables) ->
         dict_get k (kwargs_after_query paths r aliases variables)
         = dict_get k paths).
Proof.
  unfold kwargs_after_query; split.
  - intros k a s Hin Hal Harg.
    apply dict_get_update_present; [apply dict_comp_NoDup|].
    rewrite dict_get_query_kwargs, Harg.
    assert (existsb (String.eqb a)
              (convert_alias_to_name (al_query aliases) variables) = true)
      as ->; [|reflexivity].
    apply existsb_eqb_In, in_convert_alias_to_name; eauto.
  - intros k Hk.
    apply dict_get_update_absent.
    rewrite dict_get_query_kwargs.
    destruct (existsb _ _) eqn:E; [|reflexivity].
    destruct (dict_get k (args r)) as [s|] eqn:Harg; [|reflexivity].
    exfalso; apply Hk; unfold present_query_names.
    apply filter_In; split; [apply existsb_eqb_In; exact E|].
    unfold dict_mem; rewrite dict_get_to_dict, Harg; reflexivity.
Qed.

Lemma query_merge_under_alias_witness :
  dict_get "id" (kwargs_after_query item_paths item_request
                   (get_params_aliases item_signature)
                   (schema_fields item_schema))
  = Some (VStr "5")
  /\ dict_get "ref" (kwargs_after_query item_paths item_request
                       (get_params_aliases item_signature)
                       (schema_fields item_schema))
     = dict_get "ref" item_paths.
Proof.
  split.
  - apply (proj1 (query_merge_under_alias item_paths item_request
                    (get_params_aliases item_signature)
                    (schema_fields item_schema))
                  "ref"%string "id"%string "5"%string).
    + simpl; tauto.
    + reflexivity.
    + reflexivity.
  - apply (proj2 (query_merge_under_alias item_paths item_request
                    (get_params_aliases item_signature)
                    (schema_fields item_schema)) "ref"%string).
    simpl; intros [H|[]]; discriminate H.
Defined.

(** C7, as worded, fails: the query value of [ref] goes under its alias
    [id], where it replaces the value matched from the path, and nothing is
    stored under the binding key [ref]. *)
Lemma query_merge_counterexample :
  ~ query_value_under_binding_key item_paths item_request
      (get_params_aliases item_signature) (schema_fields item_schema)
  /\ ~ path_values_kept item_paths item_request
         (get_params_aliases item_signature) (schema_fields item_schema).
Proof.
  split.
  - intros H.
    specialize (H "ref"%string "id"%string "5"%string).
    simpl in H. discriminate H; auto.
  - intros H.
    specialize (H "id"%string (VStr "7") eq_refl).
    discriminate H.
Qed.

(** ** The body step *)

Lemma count_body_fold vals n :
  n <= fold_left
         (fun total pp =>
            if param_class_eqb (pclass (sig_param_object pp)) Body
            then total + 1 else total)
         vals n.
Proof.
  revert n; induction vals as [|pp vals IH]; intros n; simpl; [lia|].
  destruct (param_class_eqb _ _); [|apply IH].
  specialize (IH (n + 1)); lia.
Qed.

Lemma dict_get_in_values {V : Type} k (d : dict V) v :
  dict_get k d = Some v -> In v (dict_values d).
Proof.
  induction d as [|[k0 v0] d IH]; simpl; [discriminate|].
  destruct (String.eqb k0 k); [intros [= ->]; left; reflexivity|].
  intros H; right; apply IH; exact H.
Qed.

(** A signature that has a [Body] parameter counts at least one. *)
Lemma count_required_body_pos paired_params k pp :
  dict_get k paired_params = Some pp ->
  pclass (sig_param_object pp) = Body ->
  1 <= count_required_body paired_params.
Proof.
  intros Hget Hbody; apply dict_get_in_values in Hget.
  unfold count_required_body.
  enough (forall n,
             n + 1 <= fold_left
               (fun total pp =>
                  if param_class_eqb (pclass (sig_param_object pp)) Body
                  then total + 1 else total)
               (dict_values paired_params) n) as H
    by (specialize (H 0); lia).
  induction (dict_values paired_params) as [|pp0 vals IH]; intros n;
    [destruct Hget|].
  simpl; destruct Hget as [->|Hin].
  - rewrite Hbody; simpl.
    pose proof (count_body_fold vals (n + 1)); lia.
  - destruct (param_class_eqb _ _); [|apply IH; exact Hin].
    specialize (IH Hin (n + 1)); lia.
Qed.

Lemma string_eq_dec_cases (a b : string) : a = b \/ a <> b.
Proof. destruct (string_dec a b); [left | right]; assumption. Qed.

Section BinderFacts.
Variable construct : string -> dict pyval -> result pyval.
Variable validate : pydantic_schema -> dict pyval -> result pyval.
Variables (r : request) (paired_params : dict ParamSignature).
Variable total_body : nat.

Local Abbreviation step :=
  (resolve_body construct r paired_params total_body).
Local Abbreviation is_body := (body_key paired_params).

Lemma resolve_body_other kwargs kwargs' k k' :
  step kwargs k' = Return kwargs' -> k <> k' ->
  dict_get k kwargs' = dict_get k kwargs.
Proof.
  unfold resolve_body; intros H Hne.
  destruct (dict_get k' paired_params) as [pp|]; [|congruence].
  destruct (param_class_eqb _ _); [|congruence].
  destruct (negb (is_get r)).
  - apply bind_return in H as [v [_ [= <-]]].
    rewrite !dict_get_set_other by exact Hne; reflexivity.
  - injection H as <-; apply dict_get_set_other; exact Hne.
Qed.

Lemma resolve_body_post kwargs k pp :
  is_get r = false ->
  dict_get k paired_params = Some pp ->
  pclass (sig_param_object pp) = Body ->
  step kwargs k =
  (v <- body_payload construct r total_body (sig_param_object pp) k ;;
   Return (dict_set k v kwargs)).
Proof.
  intros Hget Hpp Hbody; unfold resolve_body.
  rewrite Hpp, Hbody, Hget; simpl.
  destruct (body_payload _ _ _ _ _); simpl; [|reflexivity].
  rewrite dict_set_set; reflexivity.
Qed.

Lemma resolve_body_get kwargs k :
  is_get r = true ->
  step kwargs k =
  Return (if is_body k then dict_set k VNone kwargs else kwargs).
Proof.
  intros Hget; unfold resolve_body, body_key.
  destruct (dict_get k paired_params) as [pp|]; [|reflexivity].
  destruct (param_class_eqb _ _); [|reflexivity].
  rewrite Hget; reflexivity.
Qed.

(** A value bound by the loop stays: the other keys do not touch it, and
    the same key would bind the same value again. *)
Lemma body_loop_keeps k pp v :
  is_get r = false ->
  dict_get k paired_params = Some pp ->
  pclass (sig_param_object pp) = Body ->
  body_payload construct r total_body (sig_param_object pp) k = Return v ->
  forall keys kwargs kwargs',
    foldM step keys kwargs = Return kwargs' ->
    dict_get k kwargs = Some v -> dict_get k kwargs' = Some v.
Proof.
  intros Hget Hpp Hbody Hv.
  induction keys as [|k' keys IH]; intros kwargs kwargs' H Hk; simpl in H.
  - injection H as <-; exact Hk.
  - apply bind_return in H as [kw1 [Hstep Hrest]].
    apply (IH _ _ Hrest).
    destruct (string_eq_dec_cases k k') as [<-|Hne].
    + rewrite (resolve_body_post _ _ _ Hget Hpp Hbody), Hv in Hstep.
      injection Hstep as <-; apply dict_get_set_same.
    + rewrite (resolve_body_other _ _ _ _ Hstep Hne); exact Hk.
Qed.

(** Every [Body] key the loop visits ends up bound to the value read
    from the payload for that key alone. *)
Lemma body_loop_binds k pp :
  is_get r = false ->
  dict_get k paired_params = Some pp ->
  pclass (sig_param_object pp) = Body ->
  forall keys kwargs kwargs',
    In k keys ->
    foldM step keys kwargs = Return kwargs' ->
    exists v,
      body_payload construct r total_body (sig_param_object pp) k
      = Return v
      /\ dict_get k kwargs' = Some v.
Proof.
  intros Hget Hpp Hbody.
  induction keys as [|k' keys IH]; intros kwargs kwargs' Hin H;
    [destruct Hin|].
  simpl in H; apply bind_return in H as [kw1 [Hstep Hrest]].
  destruct (string_eq_dec_cases k' k) as [->|Hne].
  - rewrite (resolve_body_post _ _ _ Hget Hpp Hbody) in Hstep.
    apply bind_return in Hstep as [v [Hv [= <-]]].
    exists v; split; [exact Hv|].
    apply (body_loop_keeps _ _ _ Hget Hpp Hbody Hv _ _ _ Hrest).
    apply dict_get_set_same.
  - destruct Hin as [Heq|Hin]; [congruence|].
    exact (IH _ _ Hin Hrest).
Qed.

(** The loop returns as soon as every [Body] key it visits can be read
    from the payload. *)
Lemma body_loop_returns :
  is_get r = false ->
  forall keys kwargs,
    (forall k pp, In k keys -> dict_get k paired_params = Some pp ->
                  pclass (sig_param_object pp) = Body ->
                  exists v, body_payload construct r total_body
                              (sig_param_object pp) k = Return v) ->
    exists kwargs', foldM step keys kwargs = Return kwargs'.
Proof.
  intros Hget; induction keys as [|k keys IH]; intros kwargs Hall; simpl.
  - eauto.
  - assert (exists kw1, step kwargs k = Return kw1) as [kw1 ->].
    { unfold resolve_body.
      destruct (dict_get k paired_params) as [pp|] eqn:Hpp; [|eauto].
      destruct (param_class_eqb _ _) eqn:Hb; [|eauto].
      rewrite Hget; simpl.
      destruct (Hall k pp) as [v ->]; simpl; eauto.
      destruct (pclass (sig_param_object pp)); (reflexivity || discriminate). }
    simpl; apply IH; intros k' pp Hin; apply Hall; right; exact Hin.
Qed.

(** For GET the loop is a plain fold that stores [None]. *)
Lemma body_loop_get :
  is_get r = true ->
  forall keys kwargs,
    foldM step keys kwargs =
    Return (fold_left
              (fun kw k => if is_body k then dict_set k VNone kw else kw)
              keys kwargs).
Proof.
  intros Hget; induction keys as [|k keys IH]; intros kwargs; simpl.
  - reflexivity.
  - rewrite resolve_body_get by exact Hget; simpl; apply IH.
Qed.

Lemma body_loop_get_value keys kwargs k :
  dict_get k
    (fold_left (fun kw k => if is_body k then dict_set k VNone kw else kw)
               keys kwargs) =
  if existsb (String.eqb k) keys && is_body k then Some VNone
  else dict_get k kwargs.
Proof.
  exact (dict_comp_fold keys is_body (fun _ => VNone) kwargs k).
Qed.
End BinderFacts.

Lemma body_payload_structured construct r total_body po k name :
  get_pydantic_from_annots (dtype po) = Return (Some (AClass name true)) ->
  body_payload construct r total_body po k =
  if total_body =? 1 then
    payload <- json r ;; call_model construct (AClass name true) payload
  else
    sub <- json_get (json r) (alias_or po k) ;;
    call_model construct (AClass name true) sub.
Proof. intros H; unfold body_payload; rewrite H; reflexivity. Qed.

Lemma in_empty_keys pydantic_model kwargs k :
  In k (get_non_exist_var_in_kwargs pydantic_model kwargs) <->
  In k (schema_fields pydantic_model) /\ dict_get k kwargs = None.
Proof.
  unfold get_non_exist_var_in_kwargs, dict_mem; rewrite filter_In.
  destruct (dict_get k kwargs); simpl; intuition discriminate.
Qed.

(** C1.  For a request other than GET, take a binding key [k] of type
    [Body] that is still absent after the path, query, header and form
    extraction and whose declared type unwraps to a model class.  If the
    signature has exactly one [Body] parameter, the value bound to [k] is
    built from the entire JSON payload; if it has two or more, the value is
    built from the sub-object that the payload holds under the alias key of
    [k] (the alias if declared, else [k]).  The value depends on no other
    parameter. *)
Theorem structured_body_binding
        (construct : string -> dict pyval -> result pyval)
        (paths : dict pyval) (r : request)
        (paired_params : dict ParamSignature)
        (pydantic_model : pydantic_schema) (aliases : alias_tables)
        (k : string) (pp : ParamSignature) (name : string) :
  is_get r = false ->
  In k (get_non_exist_var_in_kwargs pydantic_model
          (extracted_kwargs paths r aliases (schema_fields pydantic_model))) ->
  dict_get k paired_params = Some pp ->
  pclass (sig_param_object pp) = Body ->
  get_pydantic_from_annots (dtype (sig_param_object pp))
  = Return (Some (AClass name true)) ->
  forall kwargs,
    resolved_kwargs construct paths r paired_params pydantic_model aliases
    = Return kwargs ->
    (count_required_body paired_params = 1 ->
     exists v,
       (payload <- json r ;; call_model construct (AClass name true) payload)
       = Return v
       /\ dict_get k kwargs = Some v)
    /\ (2 <= count_required_body paired_params ->
        exists v,
          (sub <- json_get (json r) (alias_or (sig_param_object pp) k) ;;
           call_model construct (AClass name true) sub)
          = Return v
          /\ dict_get k kwargs = Some v).
Proof.
  intros Hget Hin Hpp Hbody Hunwrap kwargs Hres.
  unfold resolved_kwargs in Hres.
  pose proof (count_required_body_pos _ _ _ Hpp Hbody) as Hpos.
  destruct (count_required_body paired_params =? 0) eqn:E0;
    [apply Nat.eqb_eq in E0; lia|].
  destruct (body_loop_binds construct r paired_params
              (count_required_body paired_params) k pp Hget Hpp Hbody
              _ _ _ Hin Hres) as [v [Hv Hk]].
  rewrite (body_payload_structured _ _ _ _ _ _ Hunwrap) in Hv.
  split; intros Hcount; exists v; split; try exact Hk.
  - rewrite Hcount in Hv; exact Hv.
  - destruct (count_required_body paired_params =? 1) eqn:E1;
      [apply Nat.eqb_eq in E1; lia | exact Hv].
Qed.

Lemma structured_body_binding_witness :
  (* two [Body] parameters: each from its own alias key *)
  (exists kwargs,
      resolved_kwargs (sample_construct no_coercion) [] users_request
        users_signature users_schema (get_params_aliases users_signature)
      = Return kwargs
      /\ dict_get "meta" kwargs = Some (VModel "Meta" [("tag", VStr "new")]%string)
      /\ dict_get "user" kwargs = Some (VModel "User" [("name", VStr "ann")]%string))
  (* one [Body] parameter: the whole payload *)
  /\ (exists kwargs,
         resolved_kwargs (sample_construct no_coercion) [] user_request
           user_signature user_schema (get_params_aliases user_signature)
         = Return kwargs
         /\ dict_get "user" kwargs
            = Some (VModel "User" [("name", VStr "ann")]%string)).
Proof.
  split.
  - eexists; split; [reflexivity|].
    split.
    + destruct (proj2 (structured_body_binding (sample_construct no_coercion)
                         [] users_request users_signature users_schema
                         (get_params_aliases users_signature)
                         "meta"%string (model_sig "meta" "Meta" (Some "info"%string))
                         "Meta"%string eq_refl
                         (or_intror (or_introl eq_refl))
                         eq_refl eq_refl eq_refl _ eq_refl)
                      (le_n 2)) as [v [Hv Hk]].
      rewrite Hk; f_equal; injection Hv as <-; reflexivity.
    + destruct (proj2 (structured_body_binding (sample_construct no_coercion)
                         [] users_request users_signature users_schema
                         (get_params_aliases users_signature)
                         "user"%string (model_sig "user" "User" None)
                         "User"%string eq_refl
                         (or_introl eq_refl)
                         eq_refl eq_refl eq_refl _ eq_refl)
                      (le_n 2)) as [v [Hv Hk]].
      rewrite Hk; f_equal; injection Hv as <-; reflexivity.
  - eexists; split; [reflexivity|].
    destruct (proj1 (structured_body_binding (sample_construct no_coercion)
                       [] user_request user_signature user_schema
                       (get_params_aliases user_signature)
                       "user"%string (model_sig "user" "User" None)
                       "User"%string eq_refl
                       (or_introl eq_refl)
                       eq_refl eq_refl eq_refl _ eq_refl)
                    eq_refl) as [v [Hv Hk]].
    rewrite Hk; f_equal; injection Hv as <-; reflexivity.
Defined.

(** ** GET requests *)

Lemma foldM_ext {A S : Type} (f g : S -> A -> result S) xs s :
  (forall s x, f s x = g s x) -> foldM f xs s = foldM g xs s.
Proof.
  intros H; revert s; induction xs as [|x xs IH]; intros s; simpl.
  - reflexivity.
  - rewrite H; destruct (g s x); simpl; [apply IH | reflexivity].
Qed.

Lemma resolve_body_get_json construct r paired_params total_body j kwargs k :
  is_get r = true ->
  resolve_body construct (set_json j r) paired_params total_body kwargs k
  = resolve_body construct r paired_params total_body kwargs k.
Proof.
  intros Hget.
  rewrite !resolve_body_get by exact Hget; reflexivity.
Qed.

(** Binding a GET request does not depend on [request.json], whatever the
    signature: the payload, or the exception that evaluating it would
    raise, never shows. *)
Lemma get_kwargs_get_ignores_json construct validate depth paths r
      paired_params pydantic_model aliases j :
  is_get r = true ->
  get_kwargs construct validate depth paths (set_json j r) paired_params
             pydantic_model aliases
  = get_kwargs construct validate depth paths r paired_params
               pydantic_model aliases.
Proof.
  intros Hget; unfold get_kwargs, resolved_kwargs.
  change (extracted_kwargs paths (set_json j r) aliases
            (schema_fields pydantic_model))
    with (extracted_kwargs paths r aliases (schema_fields pydantic_model)).
  destruct (count_required_body paired_params =? 0); [reflexivity|].
  rewrite (foldM_ext _ (resolve_body construct r paired_params
                          (count_required_body paired_params)));
    [reflexivity|].
  intros; apply resolve_body_get_json; exact Hget.
Qed.

(** C5.  For a GET request the binder always reaches validation, with
    [None] under every [Body] key that was absent after extraction,
    whatever JSON payload the request carries; and when the signature has
    no [Body] parameter the outcome of binding is the same for every
    payload, readable or not: the payload is not read. *)
Theorem get_request_body_is_null
        (construct : string -> dict pyval -> result pyval)
        (validate : pydantic_schema -> dict pyval -> result pyval)
        (depth : nat) (paths : dict pyval) (r : request)
        (paired_params : dict ParamSignature)
        (pydantic_model : pydantic_schema) (aliases : alias_tables) :
  is_get r = true ->
  (exists kwargs,
      resolved_kwargs construct paths r paired_params pydantic_model aliases
      = Return kwargs
      /\ forall k pp,
          In k (get_non_exist_var_in_kwargs pydantic_model
                  (extracted_kwargs paths r aliases
                     (schema_fields pydantic_model))) ->
          dict_get k paired_params = Some pp ->
          pclass (sig_param_object pp) = Body ->
          dict_get k kwargs = Some VNone)
  /\ (count_required_body paired_params = 0 ->
      forall j,
        get_kwargs construct validate depth paths (set_json j r)
                   paired_params pydantic_model aliases
        = get_kwargs construct validate depth paths r paired_params
                     pydantic_model aliases).
Proof.
  intros Hget; split.
  - unfold resolved_kwargs.
    destruct (count_required_body paired_params =? 0) eqn:E0.
    + eexists; split; [reflexivity|].
      intros k pp _ Hpp Hbody.
      pose proof (count_required_body_pos _ _ _ Hpp Hbody).
      apply Nat.eqb_eq in E0; lia.
    + rewrite body_loop_get by exact Hget.
      eexists; split; [reflexivity|].
      intros k pp Hin Hpp Hbody.
      rewrite body_loop_get_value.
      apply existsb_eqb_In in Hin; rewrite Hin.
      unfold body_key; rewrite Hpp, Hbody; reflexivity.
  - intros _ j; apply get_kwargs_get_ignores_json; exact Hget.
Qed.

Lemma get_request_body_is_null_witness :
  (exists kwargs,
      resolved_kwargs (sample_construct no_coercion) [] user_get_request
        user_signature user_schema (get_params_aliases user_signature)
      = Return kwargs
      /\ dict_get "user" kwargs = Some VNone)
  /\ get_kwargs (sample_construct no_coercion)
       (sample_validate [("ref", "id")]%string no_coercion) 0
       item_paths (set_json (Return (VDict [])) item_request)
       item_signature item_schema (get_params_aliases item_signature)
     = get_kwargs (sample_construct no_coercion)
         (sample_validate [("ref", "id")]%string no_coercion) 0
         item_paths item_request
         item_signature item_schema (get_params_aliases item_signature).
Proof.
  split.
  - destruct (proj1 (get_request_body_is_null (sample_construct no_coercion)
                       (sample_validate [] no_coercion) 0 [] user_get_request
                       user_signature user_schema
                       (get_params_aliases user_signature) eq_refl))
      as [kwargs [Hres Hnull]].
    exists kwargs; split; [exact Hres|].
    apply (Hnull "user"%string (model_sig "user" "User" None)).
    + simpl; tauto.
    + reflexivity.
    + reflexivity.
  - apply (proj2 (get_request_body_is_null (sample_construct no_coercion)
                    (sample_validate [("ref", "id")]%string no_coercion) 0
                    item_paths item_request item_signature item_schema
                    (get_params_aliases item_signature) eq_refl)).
    reflexivity.
Defined.

(** ** Validation, normalisation and the file values *)

(** What [get_kwargs] hands over once validation has produced a schema
    instance: the instance's fields as validation left them, then the file
    values of a request other than GET. *)
Lemma finish_kwargs_model construct validate depth r pydantic_model aliases
      kwargs cls fields :
  validate pydantic_model kwargs = Return (VModel cls fields) ->
  finish_kwargs validate depth r pydantic_model aliases kwargs =
  Return (if negb (is_get r)
          then dict_update fields
                 (file_kwargs r aliases (schema_fields pydantic_model))
          else fields)
  /\ (forall paths paired_params,
         resolved_kwargs construct paths r paired_params pydantic_model
                         aliases = Return kwargs ->
         get_kwargs construct validate depth paths r paired_params
                    pydantic_model aliases =
         Return (if negb (is_get r)
                 then dict_update fields
                        (file_kwargs r aliases (schema_fields pydantic_model))
                 else fields)).
Proof.
  intros Hv.
  assert (finish_kwargs validate depth r pydantic_model aliases kwargs =
          Return (if negb (is_get r)
                  then dict_update fields
                         (file_kwargs r aliases (schema_fields pydantic_model))
                  else fields)) as H.
  { unfold finish_kwargs; rewrite Hv; cbn [bind].
    rewrite fill_all_enum_value_model; cbn [bind vars].
    destruct (negb (is_get r)); reflexivity. }
  split; [exact H|].
  intros paths paired_params Hres; unfold get_kwargs; rewrite Hres; exact H.
Qed.

Lemma dict_get_file_kwargs r aliases variables a :
  dict_get a (file_kwargs r aliases variables) =
  if existsb (String.eqb a)
       (convert_alias_to_name (al_file aliases) variables)
     && truthy (files_get a (files r))
  then Some (files_get a (files r)) else None.
Proof.
  exact (dict_get_comp _ (fun k => truthy (files_get k (files r)))
                       (fun k => files_get k (files r)) a).
Qed.

(** The file values are merged under the aliased names: an uploaded file
    present under the alias [a] of a file key [k] is in the final mapping
    under [a]; the entry of [k] itself is the validated one unless [k] is
    also the aliased name of an uploaded file. *)
Lemma file_merge_under_alias validate depth r pydantic_model aliases kwargs
      cls fields k a f :
  is_get r = false ->
  validate pydantic_model kwargs = Return (VModel cls fields) ->
  In k (schema_fields pydantic_model) ->
  dict_get k (al_file aliases) = Some a ->
  dict_get a (files r) = Some f ->
  fs_filename f <> ""%string ->
  exists final,
    finish_kwargs validate depth r pydantic_model aliases kwargs
    = Return final
    /\ dict_get a final = Some (VFile f)
    /\ (dict_get k (file_kwargs r aliases (schema_fields pydantic_model))
        = None ->
        dict_get k final = dict_get k fields).
Proof.
  intros Hget Hv Hin Hal Hf Hname.
  destruct (finish_kwargs_model (fun _ _ => Raise TypeError) validate depth r
              pydantic_model aliases kwargs cls fields Hv) as [-> _].
  rewrite Hget; cbn [negb]; eexists; split; [reflexivity|]; split.
  - apply dict_get_update_present; [apply dict_comp_NoDup|].
    rewrite dict_get_file_kwargs; unfold files_get; rewrite Hf; cbn [truthy].
    assert (existsb (String.eqb a)
              (convert_alias_to_name (al_file aliases)
                 (schema_fields pydantic_model)) = true) as ->.
    { apply existsb_eqb_In, in_convert_alias_to_name; eauto. }
    apply String.eqb_neq in Hname; rewrite Hname; reflexivity.
  - intros Hk; apply dict_get_update_absent; exact Hk.
Qed.

(** Without an alias the claim of C6 holds: the sentinel goes to
    validation under the key, and the uploaded file replaces whatever
    validation made of it. *)
Lemma file_overwrites_sentinel_unaliased validate depth paths r
      pydantic_model aliases kwargs cls fields k f :
  is_get r = false ->
  validate pydantic_model kwargs = Return (VModel cls fields) ->
  In k (schema_fields pydantic_model) ->
  dict_get k (al_file aliases) = Some k ->
  dict_get k (files r) = Some f ->
  fs_filename f <> ""%string ->
  dict_get k (extracted_kwargs paths r aliases (schema_fields pydantic_model))
  = Some dummy
  /\ exists final,
      finish_kwargs validate depth r pydantic_model aliases kwargs
      = Return final
      /\ dict_get k final = Some (VFile f).
Proof.
  intros Hget Hv Hin Hal Hf Hname; split.
  - unfold extracted_kwargs; rewrite Hget; cbn [negb].
    apply dict_get_update_present; [apply dict_comp_NoDup|].
    unfold dummy_file_kwargs; rewrite dict_get_comp, andb_true_r.
    assert (existsb (String.eqb k)
              (dict_keys (file_kwargs r aliases
                            (schema_fields pydantic_model))) = true) as ->;
      [|reflexivity].
    apply existsb_eqb_In.
    destruct (In_dec string_dec k
                (dict_keys (file_kwargs r aliases
                              (schema_fields pydantic_model))))
      as [Hk|Hk]; [exact Hk|exfalso].
    apply dict_get_in_keys in Hk.
    rewrite dict_get_file_kwargs in Hk; unfold files_get in Hk.
    rewrite Hf in Hk; cbn [truthy] in Hk.
    apply String.eqb_neq in Hname; rewrite Hname in Hk.
    assert (existsb (String.eqb k)
              (convert_alias_to_name (al_file aliases)
                 (schema_fields pydantic_model)) = true) as E.
    { apply existsb_eqb_In, in_convert_alias_to_name; eauto. }
    rewrite E in Hk; discriminate Hk.
  - destruct (file_merge_under_alias validate depth r pydantic_model aliases
                kwargs cls fields k k f Hget Hv Hin Hal Hf Hname)
      as [final [Hfin [Hk _]]].
    exists final; split; assumption.
Qed.

(** C6 (the code departs from the claim).  For a request other than GET
    and a file key [k] whose alias [a] differs from [k], with a file
    uploaded under [a]: the sentinel goes to validation under the alias,
    and after validation the uploaded file is stored under the alias too,
    so the entry of [k] that the handler receives is the one validation
    produced, not the uploaded file. *)
Theorem aliased_file_not_merged_under_key
        (construct : string -> dict pyval -> result pyval)
        (validate : pydantic_schema -> dict pyval -> result pyval)
        (depth : nat) (paths : dict pyval) (r : request)
        (paired_params : dict ParamSignature)
        (pydantic_model : pydantic_schema) (aliases : alias_tables)
        (kwargs : dict pyval) (cls : string) (fields : dict pyval)
        (k a : string) (f : file_storage) :
  is_get r = false ->
  resolved_kwargs construct paths r paired_params pydantic_model aliases
  = Return kwargs ->
  validate pydantic_model kwargs = Return (VModel cls fields) ->
  In k (schema_fields pydantic_model) ->
  dict_get k (al_file aliases) = Some a ->
  dict_get a (files r) = Some f ->
  fs_filename f <> ""%string ->
  dict_get k (file_kwargs r aliases (schema_fields pydantic_model)) = None ->
  exists final,
    get_kwargs construct validate depth paths r paired_params pydantic_model
               aliases = Return final
    /\ dict_get a final = Some (VFile f)
    /\ dict_get k final = dict_get k fields.
Proof.
  intros Hget Hres Hv Hin Hal Hf Hname Hk.
  destruct (file_merge_under_alias validate depth r pydantic_model aliases
              kwargs cls fields k a f Hget Hv Hin Hal Hf Hname)
    as [final [Hfin [Ha Hkeep]]].
  exists final; unfold get_kwargs; rewrite Hres; cbn [bind].
  split; [exact Hfin|]. split; [exact Ha | exact (Hkeep Hk)].
Qed.

Lemma aliased_file_not_merged_under_key_witness :
  exists final,
    get_kwargs (sample_construct no_coercion)
      (sample_validate [("doc", "document")]%string no_coercion) 0 []
      upload_request upload_signature upload_schema
      (get_params_aliases upload_signature)
    = Return final
    /\ dict_get "document" final = Some (VFile upload_file)
    /\ dict_get "doc" final = Some (VStr "__dummy").
Proof.
  apply (aliased_file_not_merged_under_key
           (sample_construct no_coercion)
           (sample_validate [("doc", "document")]%string no_coercion) 0 []
           upload_request upload_signature upload_schema
           (get_params_aliases upload_signature)
           [("document", VStr "__dummy")]%string "uploadSchema"%string
           [("doc", VStr "__dummy")]%string "doc"%string "document"%string
           upload_file);
    try reflexivity; [simpl; tauto | discriminate].
Defined.

(** The whole mapping of that request, and of the same upload without the
    alias. *)
Lemma upload_examples :
  (forall depth,
      get_kwargs (sample_construct no_coercion)
        (sample_validate [("doc", "document")]%string no_coercion) depth []
        upload_request upload_signature upload_schema
        (get_params_aliases upload_signature)
      = Return [("doc", VStr "__dummy");
                ("document", VFile upload_file)]%string)
  /\ (forall depth,
         get_kwargs (sample_construct no_coercion)
           (sample_validate [] no_coercion) depth []
           plain_upload_request plain_upload_signature upload_schema
           (get_params_aliases plain_upload_signature)
         = Return [("doc", VFile upload_file)]%string).
Proof. split; intros [|depth]; reflexivity. Qed.

(** C2 (the code departs from the claim).  The validated result is a
    schema instance, which [fill_all_enum_value] returns as it is, so every
    field value [v] that validation produced, a member of an enumerated
    type or a structured value holding one, reaches the handler
    unchanged. *)
Theorem validated_value_reaches_handler
        (construct : string -> dict pyval -> result pyval)
        (validate : pydantic_schema -> dict pyval -> result pyval)
        (depth : nat) (paths : dict pyval) (r : request)
        (paired_params : dict ParamSignature)
        (pydantic_model : pydantic_schema) (aliases : alias_tables)
        (kwargs : dict pyval) (cls : string) (fields : dict pyval)
        (k : string) (v : pyval) :
  resolved_kwargs construct paths r paired_params pydantic_model aliases
  = Return kwargs ->
  validate pydantic_model kwargs = Return (VModel cls fields) ->
  dict_get k fields = Some v ->
  dict_get k (file_kwargs r aliases (schema_fields pydantic_model)) = None ->
  exists final,
    get_kwargs construct validate depth paths r paired_params pydantic_model
               aliases = Return final
    /\ dict_get k final = Some v.
Proof.
  intros Hres Hv Hk Hfile.
  destruct (finish_kwargs_model construct validate depth r pydantic_model
              aliases kwargs cls fields Hv) as [_ H].
  rewrite (H paths paired_params Hres).
  eexists; split; [reflexivity|].
  destruct (negb (is_get r)); [|exact Hk].
  rewrite dict_get_update_absent by exact Hfile; exact Hk.
Qed.

Lemma validated_value_reaches_handler_witness :
  (exists final,
      get_kwargs (sample_construct no_coercion)
        (sample_validate [] to_color) 0 [] paint_request paint_signature
        paint_schema (get_params_aliases paint_signature)
      = Return final
      /\ dict_get "color" final = Some color_red)
  /\ (exists final,
         get_kwargs (sample_construct to_color)
           (sample_validate [] no_coercion) 0 [] wall_request
           wall_signature wall_schema (get_params_aliases wall_signature)
         = Return final
         /\ dict_get "wall" final
            = Some (VModel "Wall" [("color", color_red)]%string)).
Proof.
  split.
  - exact (validated_value_reaches_handler
             (sample_construct no_coercion) (sample_validate [] to_color) 0
             [] paint_request paint_signature paint_schema
             (get_params_aliases paint_signature)
             [("color", VStr "red")]%string "paintSchema_no_Body"%string
             [("color", color_red)]%string "color"%string color_red
             eq_refl eq_refl eq_refl eq_refl).
  - exact (validated_value_reaches_handler
             (sample_construct to_color) (sample_validate [] no_coercion) 0
             [] wall_request wall_signature wall_schema
             (get_params_aliases wall_signature)
             [("wall", VModel "Wall" [("color", color_red)])]%string
             "addSchema"%string
             [("wall", VModel "Wall" [("color", color_red)])]%string
             "wall"%string (VModel "Wall" [("color", color_red)]%string)
             eq_refl eq_refl eq_refl eq_refl).
Defined.

(** ** The router's dependency list *)

Lemma foldM_raises {A S : Type} (body : S -> A -> result S) xs x :
  In x xs ->
  (forall s, exists e, body s x = Raise e) ->
  forall s, exists e, foldM body xs s = Raise e.
Proof.
  intros Hin Hx; induction xs as [|y xs IH]; intros s; [destruct Hin|].
  simpl; destruct Hin as [->|Hin].
  - destruct (Hx s) as [e ->]; simpl; eauto.
  - destruct (body s y) as [s'|e]; simpl; [apply IH; exact Hin | eauto].
Qed.

Section ResolverFacts.
Variable func : Type.
Variable func_eqb : func -> func -> bool.
Hypothesis func_eqb_spec : forall f g, func_eqb f g = true <-> f = g.
Variable own_parameters :
  (func -> result (dict ParamSignature)) -> str -> func ->
  result (dict ParamSignature).

Local Abbreviation update := (update_dependencies func_eqb).
Local Abbreviation member := (fun s deps => existsb (dependency_eqb func_eqb s) deps).

Lemma dependency_eqb_spec (a b : dependency func) :
  dependency_eqb func_eqb a b = true <-> a = b.
Proof.
  destruct a as [f|i], b as [g|j]; simpl.
  - rewrite func_eqb_spec; split; congruence.
  - split; discriminate.
  - split; discriminate.
  - rewrite Nat.eqb_eq; split; congruence.
Qed.

Lemma member_In s deps : member s deps = true <-> In s deps.
Proof.
  rewrite existsb_exists; split.
  - intros [x [Hin E]]; apply dependency_eqb_spec in E; subst; exact Hin.
  - intros Hin; exists s; split; [exact Hin | apply dependency_eqb_spec;
                                               reflexivity].
Qed.

(** The list only grows, at its end: the old entries stay where they are,
    and what is added is, in order and once each, the entries of [stack]
    that were not there. *)
Lemma update_dependencies_grows stack : forall deps,
  exists added,
    update deps stack = deps ++ added
    /\ NoDup added
    /\ (forall s, In s added <-> In s stack /\ ~ In s deps).
Proof.
  induction stack as [|s stack IH]; intros deps; simpl.
  - exists []; rewrite app_nil_r; split; [reflexivity|].
    split; [constructor|]. simpl; tauto.
  - destruct (existsb (dependency_eqb func_eqb s) deps) eqn:E.
    + apply member_In in E.
      destruct (IH deps) as [added [Heq [Hnd Hin]]].
      exists added; split; [exact Heq|]. split; [exact Hnd|].
      intros x; rewrite Hin; split.
      * intros [Hx Hn]; split; [right; exact Hx | exact Hn].
      * intros [[<-|Hx] Hn]; [contradiction | split; assumption].
    + assert (~ In s deps) as Hs.
      { intros Hin; apply member_In in Hin; congruence. }
      destruct (IH (deps ++ [s])) as [added [Heq [Hnd Hin]]].
      exists (s :: added); split; [rewrite Heq, <- app_assoc; reflexivity|].
      split.
      * constructor; [|exact Hnd].
        intros Hadd; apply Hin in Hadd as [_ Hnot].
        apply Hnot, in_or_app; right; left; reflexivity.
      * intros x; simpl; rewrite Hin; split.
        -- intros [<-|[Hx Hn]].
           ++ split; [left; reflexivity | exact Hs].
           ++ split; [right; exact Hx|].
              intros Hd; apply Hn, in_or_app; left; exact Hd.
        -- intros [[<-|Hx] Hn]; [left; reflexivity|].
           destruct (dependency_eqb func_eqb s x) eqn:Es.
           ++ apply dependency_eqb_spec in Es; left; exact Es.
           ++ right; split; [exact Hx|].
              intros Hd; apply in_app_or in Hd as [Hd|[<-|[]]];
                [exact (Hn Hd)|].
              assert (dependency_eqb func_eqb s s = true) as Hrefl
                by (apply dependency_eqb_spec; reflexivity).
              congruence.
Qed.

(** No entry is duplicated by an update. *)
Lemma update_dependencies_NoDup deps stack :
  NoDup deps -> NoDup (update deps stack).
Proof.
  intros Hnd.
  destruct (update_dependencies_grows stack deps) as [added [-> [Ha Hin]]].
  apply NoDup_app; [exact Hnd | exact Ha|].
  intros s Hd Hadd; apply Hin in Hadd as [_ Hnot]; exact (Hnot Hd).
Qed.

(** Every declared dependency is in the list afterwards. *)
Lemma update_dependencies_has_stack deps stack s :
  In s stack -> In s (update deps stack).
Proof.
  intros Hs.
  destruct (update_dependencies_grows stack deps) as [added [-> [_ Hin]]].
  apply in_or_app.
  destruct (member s deps) eqn:E.
  - left; apply member_In; exact E.
  - right; apply Hin; split; [exact Hs|].
    intros Hd; apply member_In in Hd; congruence.
Qed.

(** Once the dependency list holds a callable, resolving a signature never
    returns: the call made for the dependency reaches the same loop over
    the same list, until the interpreter stack is used up. *)
Lemma _get_func_signature_never_returns deps g :
  In (DepCallable g) deps ->
  forall depth path f,
    exists e, _get_func_signature own_parameters depth deps path f = Raise e.
Proof.
  intros Hin; induction depth as [|depth IH]; intros path f;
    cbn [_get_func_signature];
    destruct (own_parameters _ path f) as [pair|e]; cbn [bind]; eauto;
    apply (foldM_raises _ _ _ Hin); intros s; cbn.
  - eauto.
  - destruct (IH path g) as [e ->]; cbn; eauto.
Qed.

(** Entries that are not callable are skipped: with only such entries the
    resolved signature is that of the handler's own parameters. *)
Lemma _get_func_signature_skips_objects deps :
  Forall (fun d => exists i, d = DepObject i) deps ->
  forall depth path f,
    _get_func_signature own_parameters depth deps path f =
    own_parameters
      (fun g => match depth with
                | 0 => Raise RecursionError
                | S depth' =>
                    _get_func_signature own_parameters depth' deps path g
                end)
      path f.
Proof.
  intros Hobj depth path f.
  assert (forall body : dict ParamSignature -> dependency func ->
                        result (dict ParamSignature),
             (forall pair i, body pair (DepObject i) = Return pair) ->
             forall pair, foldM body deps pair = Return pair) as Hloop.
  { intros body Hbody; induction Hobj as [|d deps [i ->] _ IH]; intros pair;
      [reflexivity|].
    cbn [foldM]; rewrite Hbody; exact (IH pair). }
  destruct depth; cbn [_get_func_signature];
    destruct (own_parameters _ path f) as [pair|e]; cbn [bind];
    try reflexivity; apply Hloop; reflexivity.
Qed.

End ResolverFacts.

(** C10 (the code departs from the claim).  Registering a route with a
    dependency [g] on a router without dependencies leaves [g] in the
    router's list, but the signature of the route is never resolved, at any
    stack depth; and the same happens to a route registered later on the
    router with no dependency of its own.  With handlers and dependencies
    that take no parameters the exception is [RecursionError]. *)
Theorem route_with_dependency_never_resolves :
  forall (func : Type) (func_eqb : func -> func -> bool)
         (own_parameters :
            (func -> result (dict ParamSignature)) -> str -> func ->
            result (dict ParamSignature))
         (depth : nat) (f f' g : func),
    let first := route func_eqb own_parameters depth (mk_router [])
                       (s2l "/a") [DepCallable g] f in
    let later := route func_eqb own_parameters depth (fst first)
                       (s2l "/b") [] f' in
    dependecies (fst first) = [DepCallable g]
    /\ (exists e, snd first = Raise e)
    /\ dependecies (fst later) = [DepCallable g]
    /\ (exists e, snd later = Raise e)
    /\ snd (route func_eqb no_own_parameters depth (mk_router [])
                  (s2l "/a") [DepCallable g] f) = Raise RecursionError.
Proof.
  intros func func_eqb own depth f f' g first later.
  split; [reflexivity|]. split.
  - apply (_get_func_signature_never_returns func own [DepCallable g] g);
      left; reflexivity.
  - split; [reflexivity|]. split.
    + apply (_get_func_signature_never_returns func own [DepCallable g] g);
        left; reflexivity.
    + assert (forall d path h,
                 _get_func_signature no_own_parameters d [DepCallable g]
                                     path h
                 = Raise RecursionError) as H.
      { induction d as [|d IH]; intros path h; cbn; [reflexivity|].
        rewrite IH; reflexivity. }
      exact (H depth (s2l "/a") f).
Qed.

(** ** Patterns outside the placeholder syntax *)

(** With stray brackets the rewriting loop of [validate_rule] is lenient:
    a [>] after a closed placeholder writes the last name again, a [<]
    inside an open placeholder starts the name afresh, and a [>] before any
    placeholder fails on the empty [start_path]. *)
Lemma validate_rule_stray_brackets :
  validate_rule (s2l "/<a>/b>") = Return (s2l "/<a>/b<a>")
  /\ validate_rule (s2l "/x<a<b>") = Return (s2l "/x<b>")
  /\ validate_rule (s2l "/b>/<a>") = Raise IndexError.
Proof. repeat split. Qed.

(* ================================================================== *)
(** * Further properties of the router *)

(** ** The bracket-to-brace rewrite, character by character *)




Lemma swagger_step_acc opening acc c :
  swagger_step (opening, acc) c =
  (fst (swagger_step (opening, []) c),
   acc ++ snd (swagger_step (opening, []) c)).
Proof.
  unfold swagger_step.
  destruct (negb opening && Ascii.eqb c ch_lt);
    [|destruct (opening && Ascii.eqb c ch_gt)]; reflexivity.
Qed.

Lemma swagger_fold_acc rule : forall opening acc,
  fold_left swagger_step rule (opening, acc) =
  (fst (fold_left swagger_step rule (opening, [])),
   acc ++ snd (fold_left swagger_step rule (opening, []))).
Proof.
  induction rule as [|c rule IH]; intros opening acc.
  - cbn; rewrite app_nil_r; reflexivity.
  - change (fold_left swagger_step (c :: rule) (opening, acc))
      with (fold_left swagger_step rule (swagger_step (opening, acc) c)).
    change (fold_left swagger_step (c :: rule) (opening, []))
      with (fold_left swagger_step rule (swagger_step (opening, []) c)).
    rewrite (swagger_step_acc opening acc c).
    destruct (swagger_step (opening, []) c) as [o1 x1] eqn:E; cbn [fst snd].
    pose proof (IH o1 (acc ++ x1)) as H1; pose proof (IH o1 x1) as H2.
    rewrite <- app_assoc in H1.
    etransitivity; [exact H1|]. rewrite H2; reflexivity.
Qed.

(** X2.  The descriptor's rule is the rewrite of [url_prefix + rule]: when
    the prefix has no [<], it is the prefix followed by the rewrite of the
    rule. *)
Theorem validate_rule_for_swagger_prefix (prefix rule : str) :
  ~ In ch_lt prefix ->
  validate_rule_for_swagger (prefix ++ rule)
  = prefix ++ validate_rule_for_swagger rule.
Proof.
  intros Hl; unfold validate_rule_for_swagger.
  rewrite fold_left_app.
  pose proof (swagger_text prefix Hl []) as H1.
  pose proof (swagger_fold_acc rule false prefix) as H2.
  unfold str in *; cbn [app] in H1; rewrite H1, H2; reflexivity.
Qed.

Lemma validate_rule_for_swagger_prefix_witness :
  validate_rule_for_swagger (s2l "/api/v1" ++ s2l "/items/<id>")
  = s2l "/api/v1" ++ validate_rule_for_swagger (s2l "/items/<id>").
Proof.
  apply (validate_rule_for_swagger_prefix (s2l "/api/v1") (s2l "/items/<id>")).
  simpl; intuition discriminate.
Defined.

(** ** Acceptance and edge cases of [validate_rule] *)

Lemma count_char_firstn c n (s : str) :
  count_char c (firstn n s) <= count_char c s.
Proof.
  unfold count_char.
  rewrite <- (firstn_skipn n s) at 2; rewrite count_occ_app; lia.
Qed.

Lemma count_char_skipn c n (s : str) :
  count_char c (skipn n s) <= count_char c s.
Proof.
  unfold count_char.
  rewrite <- (firstn_skipn n s) at 2; rewrite count_occ_app; lia.
Qed.

(** Every match of [findall] is a piece of the string. *)
Lemma findall_aux_count c r fuel : forall s,
  Forall (fun m => count_char c m <= count_char c s) (findall_aux fuel r s).
Proof.
  induction fuel as [|fuel IH]; intros s; cbn [findall_aux]; [constructor|].
  assert (forall t, count_char c t <= count_char c s ->
            Forall (fun m => count_char c m <= count_char c s)
                   (findall_aux fuel r t)) as Hsub.
  { intros t Ht; eapply Forall_impl; [|apply IH].
    intros m Hm; cbv beta in *; lia. }
  destruct (match_here r s) as [[|n]|].
  - constructor; [unfold count_char; simpl; lia|].
    destruct s as [|x s']; [constructor|].
    apply Hsub; change (x :: s') with ([x] ++ s').
    unfold count_char; rewrite count_occ_app; lia.
  - constructor; [apply count_char_firstn|].
    apply Hsub, count_char_skipn.
  - destruct s as [|x s']; [constructor|].
    apply Hsub; change (x :: s') with ([x] ++ s').
    unfold count_char; rewrite count_occ_app; lia.
Qed.

Lemma assert_single_type_passes texts :
  Forall (fun m => count_char ch_colon m <= 1) texts ->
  assert_single_type texts = Return tt.
Proof.
  induction 1 as [|m texts Hm _ IH]; [reflexivity|].
  cbn [assert_single_type].
  destruct (count_char ch_colon m) as [|[|n]]; cbn; [exact IH | exact IH | lia].
Qed.

(** X3.  A pattern made of text and placeholders [<name>] or
    [<type:name>] that has at most one colon in all is accepted by
    [validate_rule], and the result is the pattern with the type prefix
    removed. *)
Theorem validate_rule_accepts_single_colon (segs : list segment) :
  Forall wf_segment segs ->
  count_char ch_colon (render segs) <= 1 ->
  validate_rule (render segs) = Return (untyped segs).
Proof.
  intros Hwf Hc.
  rewrite (validate_rule_wf segs Hwf).
  rewrite assert_single_type_passes; [reflexivity|].
  eapply Forall_impl; [|apply (findall_aux_count ch_colon)].
  intros m Hm; cbv beta in *; lia.
Qed.

Lemma validate_rule_accepts_single_colon_witness :
  validate_rule (render shop_pattern) = Return (untyped shop_pattern).
Proof.
  apply (validate_rule_accepts_single_colon shop_pattern).
  - repeat constructor; simpl; intuition discriminate.
  - vm_compute; lia.
Defined.

Lemma last_opt_nonempty {A : Type} (l : list A) :
  l <> [] -> exists x, last_opt l = Some x.
Proof.
  intros Hl; destruct (exists_last Hl) as [l' [x ->]].
  exists x; apply last_opt_snoc.
Qed.

Lemma set_last_nonempty {A : Type} (l : list A) v : set_last l v <> [].
Proof. unfold set_last; intros H; apply app_eq_nil in H as [_ H]; discriminate. Qed.

(** After an opening bracket, and until a closing one, the loop only
    collects the name. *)
Lemma vr_open_run body : ~ In ch_gt body ->
  forall nr sp, sp <> [] ->
    exists sp', sp' <> []
      /\ foldM vr_step body (mk_vr nr true sp) = Return (mk_vr nr true sp').
Proof.
  induction body as [|c body IH]; intros Hg nr sp Hsp.
  - exists sp; split; [exact Hsp | reflexivity].
  - assert (~ In ch_gt body) as Hg' by (intros H; apply Hg; right; exact H).
    cbn [foldM]; unfold vr_step at 1;
      cbn [new_rule start_write_path start_path].
    destruct (Ascii.eqb c ch_lt).
    + cbn [bind]; apply (IH Hg').
      intros H; apply app_eq_nil in H as [_ H]; discriminate.
    + rewrite (ascii_eqb_false c ch_gt)
        by (intros ->; apply Hg; left; reflexivity).
      cbn [negb]. destruct (last_opt_nonempty sp Hsp) as [cur ->].
      cbn [bind]; apply (IH Hg'), set_last_nonempty.
Qed.

(** X4.  A placeholder that is opened and never closed is dropped from the
    rule, with everything after it, and no error is raised. *)
Theorem validate_rule_drops_unclosed_placeholder (pre body : str) :
  no_brackets pre -> ~ In ch_gt body ->
  validate_rule (pre ++ ch_lt :: body) = Return pre.
Proof.
  intros Hpre Hbody; unfold validate_rule, findall.
  rewrite findall_aux_no_gt.
  - cbn [assert_single_type bind]; unfold vr_init.
    rewrite foldM_app, (vr_text pre Hpre); cbn [bind app foldM].
    unfold vr_step at 1; rewrite ascii_eqb_refl;
      cbn [bind new_rule start_path app].
    destruct (vr_open_run body Hbody pre [[]]) as [sp' [_ ->]];
      [discriminate | reflexivity].
  - intros Hin; apply in_app_or in Hin as [Hin|[Hin|Hin]].
    + exact (proj2 Hpre Hin).
    + discriminate Hin.
    + exact (Hbody Hin).
Qed.

Lemma validate_rule_drops_unclosed_placeholder_witness :
  validate_rule (s2l "/items/<int:id/detail") = Return (s2l "/items/").
Proof.
  apply (validate_rule_drops_unclosed_placeholder
           (s2l "/items/") (s2l "int:id/detail"));
    [split|]; simpl; intuition discriminate.
Defined.

(** X5.  A closing bracket that comes before any opening bracket makes
    [validate_rule] raise: [IndexError] from the empty [start_path], unless
    the assertion has failed first. *)
Theorem validate_rule_stray_closing_bracket (pre rest : str) :
  no_brackets pre ->
  validate_rule (pre ++ ch_gt :: rest) = Raise IndexError
  \/ validate_rule (pre ++ ch_gt :: rest) = Raise AssertionError.
Proof.
  intros Hpre; unfold validate_rule.
  destruct (assert_single_type _) as [[]|e] eqn:Ha; cbn [bind].
  - left; unfold vr_init.
    rewrite foldM_app, (vr_text pre Hpre); cbn [bind app foldM].
    unfold vr_step at 1.
    rewrite (ascii_eqb_false ch_gt ch_lt) by discriminate.
    rewrite ascii_eqb_refl; reflexivity.
  - right; f_equal.
    clear -Ha; revert Ha.
    induction (findall placeholder_span (pre ++ ch_gt :: rest))
      as [|m ms IH]; cbn [assert_single_type]; [discriminate|].
    destruct (_ || _); [exact IH | intros [= <-]; reflexivity].
Qed.

Lemma validate_rule_stray_closing_bracket_witness :
  validate_rule (s2l "/items>/<id>") = Raise IndexError
  \/ validate_rule (s2l "/items>/<id>") = Raise AssertionError.
Proof.
  apply (validate_rule_stray_closing_bracket (s2l "/items") (s2l "/<id>")).
  split; simpl; intuition discriminate.
Defined.

(** ** The path check on patterns *)

Lemma check_params_in_path_occurrences key path :
  ~ In ch_lt key ->
  check_params_in_path key path
  = path_check_outcome (occurrences (placeholder key) path).
Proof.
  intros Hkey; unfold check_params_in_path, findall.
  rewrite key_pattern_literal.
  rewrite (findall_aux_placeholder key Hkey) by lia.
  destruct (occurrences (placeholder key) path) as [|[|n]]; reflexivity.
Qed.

(** [key>] starts [body>...] only when [body] is [key]. *)
Lemma prefixb_hole key : ~ In ch_gt key ->
  forall body rest, ~ In ch_gt body ->
    prefixb (key ++ [ch_gt]) (body ++ ch_gt :: rest)
    = if str_eq_dec body key then true else false.
Proof.
  induction key as [|a key IH]; intros Hk body rest Hb.
  - destruct body as [|c body]; cbn [app prefixb].
    + rewrite ascii_eqb_refl.
      destruct (str_eq_dec [] []) as [_|n];
        [reflexivity | exfalso; apply n; reflexivity].
    + rewrite (ascii_eqb_false ch_gt c)
        by (intros Heq; apply Hb; left; symmetry; exact Heq).
      destruct (str_eq_dec (c :: body) []); [discriminate | reflexivity].
  - destruct body as [|c body]; cbn [app prefixb].
    + rewrite (ascii_eqb_false a ch_gt)
        by (intros ->; apply Hk; left; reflexivity).
      destruct (str_eq_dec [] (a :: key)); [discriminate | reflexivity].
    + destruct (Ascii.eqb a c) eqn:E; cbn [andb].
      * apply Ascii.eqb_eq in E; subst c.
        rewrite IH.
        -- destruct (str_eq_dec body key) as [e|n],
             (str_eq_dec (a :: body) (a :: key)) as [e'|n'];
             try reflexivity; exfalso.
           ++ apply n'; rewrite e; reflexivity.
           ++ apply n; injection e' as ->; reflexivity.
        -- intros Hin; apply Hk; right; exact Hin.
        -- intros Hin; apply Hb; right; exact Hin.
      * destruct (str_eq_dec (c :: body) (a :: key)) as [Heq|]; [|reflexivity].
        injection Heq as -> _; rewrite ascii_eqb_refl in E; discriminate.
Qed.

Lemma occurrences_hole key body rest :
  ~ In ch_lt key -> ~ In ch_gt key -> no_brackets body ->
  occurrences (placeholder key) (ch_lt :: body ++ ch_gt :: rest)
  = (if str_eq_dec body key then 1 else 0)
    + occurrences (placeholder key) rest.
Proof.
  intros Hkl Hkg [Hbl Hbg].
  change (occurrences (placeholder key) (ch_lt :: body ++ ch_gt :: rest))
    with ((if prefixb (placeholder key) (ch_lt :: body ++ ch_gt :: rest)
           then 1 else 0)
          + occurrences (placeholder key) (body ++ ch_gt :: rest)).
  f_equal.
  - unfold placeholder; cbn [prefixb]; rewrite ascii_eqb_refl; cbn [andb].
    rewrite (prefixb_hole key Hkg body rest Hbg).
    destruct (str_eq_dec body key); reflexivity.
  - change (ch_gt :: rest) with ([ch_gt] ++ rest); rewrite app_assoc.
    unfold placeholder; apply occurrences_skip_run.
    intros Hin; apply in_app_or in Hin as [Hin|[Hin|[]]];
      [exact (Hbl Hin) | discriminate Hin].
Qed.

Lemma identifier_no_special key c :
  forallb ident_char key = true -> ident_char c = false -> ~ In c key.
Proof.
  intros H Hc Hin; rewrite forallb_forall in H.
  specialize (H _ Hin); congruence.
Qed.

Lemma occurrences_untyped key segs :
  identifier key -> Forall wf_segment segs ->
  occurrences (placeholder key) (untyped segs)
  = count_occ str_eq_dec (placeholder_names segs) key.
Proof.
  intros [_ Hid] Hwf.
  pose proof (identifier_no_special key ch_lt Hid eq_refl) as Hkl.
  pose proof (identifier_no_special key ch_gt Hid eq_refl) as Hkg.
  induction Hwf as [|seg segs Hseg _ IH]; [reflexivity|].
  unfold untyped, placeholder_names in *; cbn [flat_map].
  destruct seg as [t|type name]; cbn [untyped_segment app].
  - unfold placeholder at 1; rewrite occurrences_skip_run by exact (proj1 Hseg).
    exact IH.
  - rewrite <- app_assoc; cbn [app].
    rewrite (occurrences_hole key name _ Hkl Hkg (wf_segment_name _ _ Hseg)).
    rewrite IH.
    destruct (str_eq_dec name key) as [->|Hne].
    + rewrite count_occ_cons_eq by reflexivity; reflexivity.
    + rewrite count_occ_cons_neq by exact Hne; reflexivity.
Qed.

Lemma occurrences_render key segs :
  identifier key -> Forall wf_segment segs ->
  occurrences (placeholder key) (render segs)
  = count_occ str_eq_dec (untyped_placeholder_names segs) key.
Proof.
  intros [_ Hid] Hwf.
  pose proof (identifier_no_special key ch_lt Hid eq_refl) as Hkl.
  pose proof (identifier_no_special key ch_gt Hid eq_refl) as Hkg.
  pose proof (identifier_no_special key ch_colon Hid eq_refl) as Hkc.
  induction Hwf as [|seg segs Hseg _ IH]; [reflexivity|].
  unfold render, untyped_placeholder_names in *; cbn [flat_map].
  destruct seg as [t|type name].
  - cbn [render_segment app].
    unfold placeholder at 1; rewrite occurrences_skip_run by exact (proj1 Hseg).
    exact IH.
  - rewrite render_placeholder, <- !app_assoc; cbn [app].
    rewrite (occurrences_hole key _ _ Hkl Hkg (no_brackets_body _ _ Hseg)).
    rewrite IH.
    destruct type as [ty|]; cbn [placeholder_body app].
    + destruct (str_eq_dec (ty ++ ch_colon :: name) key) as [Heq|_];
        [|reflexivity].
      exfalso; apply Hkc; rewrite <- Heq.
      apply in_or_app; right; left; reflexivity.
    + destruct (str_eq_dec name key) as [->|Hne].
      * rewrite count_occ_cons_eq by reflexivity; reflexivity.
      * rewrite count_occ_cons_neq by exact Hne; reflexivity.
Qed.

(** X6.  The rule that [validate_rule] returns for a pattern of text and
    placeholders and the path check agree: a parameter name is found in
    the validated rule as often as it names a placeholder of the pattern,
    typed or not; so it is a path parameter when it names exactly one
    placeholder, and raises [SwaggerPathError] when it names several. *)
Theorem validated_rule_path_check (key : str) (segs : list segment) (r : str) :
  identifier key ->
  Forall wf_segment segs ->
  validate_rule (render segs) = Return r ->
  check_params_in_path key r
  = path_check_outcome (count_occ str_eq_dec (placeholder_names segs) key).
Proof.
  intros Hid Hwf Hv.
  rewrite (validate_rule_wf segs Hwf) in Hv.
  apply bind_return in Hv as [_ [_ [= <-]]].
  rewrite check_params_in_path_occurrences
    by (exact (identifier_no_special key ch_lt (proj2 Hid) eq_refl)).
  rewrite (occurrences_untyped key segs Hid Hwf); reflexivity.
Qed.

Lemma validated_rule_path_check_witness :
  check_params_in_path (s2l "id") (s2l "/shop/<id>/items") = Return true.
Proof.
  apply (validated_rule_path_check (s2l "id") shop_pattern
           (s2l "/shop/<id>/items")).
  - split; [discriminate | reflexivity].
  - repeat constructor; simpl; intuition discriminate.
  - reflexivity.
Defined.

(** X7.  On a pattern that has not gone through [validate_rule] the path
    check sees the placeholders written without a type only: a name that
    occurs in typed placeholders alone is reported as not in the path. *)
Theorem raw_rule_path_check (key : str) (segs : list segment) :
  identifier key ->
  Forall wf_segment segs ->
  check_params_in_path key (render segs)
  = path_check_outcome
      (count_occ str_eq_dec (untyped_placeholder_names segs) key).
Proof.
  intros Hid Hwf.
  rewrite check_params_in_path_occurrences
    by (exact (identifier_no_special key ch_lt (proj2 Hid) eq_refl)).
  rewrite (occurrences_render key segs Hid Hwf); reflexivity.
Qed.

Lemma raw_rule_path_check_witness :
  check_params_in_path (s2l "id") (s2l "/shop/<int:id>/items") = Return false.
Proof.
  apply (raw_rule_path_check (s2l "id") shop_pattern).
  - split; [discriminate | reflexivity].
  - repeat constructor; simpl; intuition discriminate.
Defined.

(** ** Enum normalisation on dictionaries *)

(** X8.  On a dictionary with one entry per key, and with stack depth for
    its nesting, [fill_all_enum_value] returns the dictionary with every
    enum member replaced by its value at every level of nested
    dictionaries, the keys and their order kept. *)
Theorem fill_all_enum_value_normalises_dicts (depth : nat) (o : pyval) :
  dict_depth o <= depth ->
  unique_keys o ->
  fill_all_enum_value depth o = Return (enum_normal o).
Proof. intros Hd Hu; apply fill_all_enum_value_nested; assumption. Qed.

Lemma fill_all_enum_value_normalises_dicts_witness :
  fill_all_enum_value 2
    (VDict [("kind", color_red);
            ("inner", VDict [("shade", color_red); ("n", VInt 3)])]%string)
  = Return
      (VDict [("kind", VStr "red");
              ("inner", VDict [("shade", VStr "red"); ("n", VInt 3)])]%string).
Proof.
  apply (fill_all_enum_value_normalises_dicts 2
           (VDict [("kind", color_red);
                   ("inner", VDict [("shade", color_red);
                                    ("n", VInt 3)])]%string)).
  - simpl; lia.
  - simpl; repeat split; repeat constructor; simpl; intuition discriminate.
Defined.

Lemma fill_all_enum_value_filled depth o :
  fill_all_enum_value depth o = Return (filled depth o).
Proof.
  unfold filled.
  destruct (fill_all_enum_value depth o) as [v|e] eqn:E; [reflexivity|].
  rewrite fill_all_enum_value_unfold in E.
  destruct (try_except_returns
              (match o with
               | VDict d =>
                   datas <- foldM
                     (fun datas k =>
                        item <- getitem d k ;;
                        match depth with
                        | 0 => Raise RecursionError
                        | S depth' =>
                            v <- fill_all_enum_value depth' item ;;
                            Return (dict_set k v datas)
                        end)
                     (dict_keys d) [] ;;
                   Return (VDict datas)
               | VEnum _ _ value => Return value
               | _ => Return o
               end) o) as [v Hv].
  rewrite Hv in E; discriminate E.
Qed.

(** X9.  Whatever the stack depth left, [fill_all_enum_value] returns, for
    a dictionary with one entry per key, a dictionary with the same keys
    in the same order; when no frame is left for the nested calls, a
    dictionary that is not empty comes back as it is, enum members
    included. *)
Theorem fill_all_enum_value_keeps_keys (depth : nat)
        (d : list (string * pyval)) :
  NoDup (dict_keys d) ->
  (exists d',
      fill_all_enum_value depth (VDict d) = Return (VDict d')
      /\ dict_keys d' = dict_keys d)
  /\ (d <> [] -> fill_all_enum_value 0 (VDict d) = Return (VDict d)).
Proof.
  intros Hnd; split.
  - destruct depth as [|depth].
    + destruct d as [|[k v] d].
      * exists []; split; reflexivity.
      * exists ((k, v) :: d); split; [|reflexivity].
        rewrite fill_all_enum_value_unfold.
        cbn [dict_keys map fst foldM]; unfold getitem.
        cbn [dict_get]; rewrite String.eqb_refl; reflexivity.
    + exists (map (fun kv => (fst kv, filled depth (snd kv))) d); split.
      * rewrite fill_all_enum_value_unfold.
        pose proof (fill_loop (fill_all_enum_value depth) (filled depth) d [])
          as HL.
        cbn [app map] in HL; unfold getitem in *.
        rewrite HL; [reflexivity | exact Hnd |].
        intros k v _; apply fill_all_enum_value_filled.
      * unfold dict_keys; rewrite map_map; reflexivity.
  - intros Hne; destruct d as [|[k v] d]; [congruence|].
    rewrite fill_all_enum_value_unfold.
    cbn [dict_keys map fst foldM]; unfold getitem.
    cbn [dict_get]; rewrite String.eqb_refl; reflexivity.
Qed.

Lemma fill_all_enum_value_keeps_keys_witness :
  (exists d',
      fill_all_enum_value 1
        (VDict [("kind", color_red);
                ("inner", VDict [("shade", color_red)])]%string)
      = Return (VDict d')
      /\ dict_keys d' = ["kind"; "inner"]%string)
  /\ fill_all_enum_value 0 (VDict [("kind", color_red)]%string)
     = Return (VDict [("kind", color_red)]%string).
Proof.
  split.
  - apply (proj1 (fill_all_enum_value_keeps_keys 1
                    [("kind", color_red);
                     ("inner", VDict [("shade", color_red)])]%string
                    ltac:(repeat constructor; simpl; intuition discriminate))).
  - apply (proj2 (fill_all_enum_value_keeps_keys 0
                    [("kind", color_red)]%string
                    ltac:(repeat constructor; simpl; intuition discriminate))).
    discriminate.
Defined.

(** ** Unwrapping annotations *)

(** What [get_pydantic_from_annots] returns, when it returns something,
    is a model class or a subscripted generic. *)
Lemma get_pydantic_from_annots_shape : forall a b,
  get_pydantic_from_annots a = Return (Some b) ->
  (exists name, b = AClass name true)
  \/ (exists origin args, b = AGenericAlias origin args).
Proof.
  fix IH 1; intros a b H.
  destruct a as [name is_model|origin args|name|name].
  - cbn in H; destruct is_model; [|discriminate].
    injection H as <-; left; eauto.
  - cbn in H. destruct args as [|a0 rest]; [discriminate|].
    destruct (get_pydantic_from_annots a0) as [[b0|]|e] eqn:E0;
      cbn [bind] in H; [| |discriminate].
    + injection H as <-; exact (IH a0 b0 E0).
    + injection H as <-; right; eauto.
  - cbn in H; discriminate.
  - cbn in H; discriminate.
Qed.

(** X10.  [get_pydantic_from_annots] never returns a class that is not a
    model class: its result, if any, passes the [BaseModel] subclass test
    or makes the test raise [TypeError].  So in [get_kwargs] the branch
    taken when the test is false (lines 756-757) is never reached. *)
Theorem get_pydantic_from_annots_result (a b : annot) :
  get_pydantic_from_annots a = Return (Some b) ->
  subclasscheck_BaseModel b = Return true
  \/ subclasscheck_BaseModel b = Raise TypeError.
Proof.
  intros H.
  destruct (get_pydantic_from_annots_shape a b H) as [[n ->]|[o [args ->]]];
    [left | right]; reflexivity.
Qed.

Lemma get_pydantic_from_annots_result_witness :
  subclasscheck_BaseModel
    (AGenericAlias "List" [AClass "int" false]) = Return true
  \/ subclasscheck_BaseModel
       (AGenericAlias "List" [AClass "int" false]) = Raise TypeError.
Proof.
  apply (get_pydantic_from_annots_result
           (AGenericAlias "List" [AClass "int" false])
           (AGenericAlias "List" [AClass "int" false])).
  reflexivity.
Defined.

(** X11.  The value read for a [Body] key of a request other than GET, by
    the outcome of unwrapping its [dtype]: an exception of the unwrapping
    is raised on; no result gives the lookup of the alias key in the
    payload; a model class gives the class called on the whole payload or
    on the sub-object of the alias key; anything else, such as [List[int]],
    raises [TypeError]. *)
Theorem body_payload_cases
        (construct : string -> dict pyval -> result pyval)
        (r : request) (total_body : nat) (po : param_object) (k : string) :
  body_payload construct r total_body po k =
  match get_pydantic_from_annots (dtype po) with
  | Raise e => Raise e
  | Return None => json_get (json r) (alias_or po k)
  | Return (Some (AClass name true)) =>
      if total_body =? 1 then
        payload <- json r ;; call_model construct (AClass name true) payload
      else
        sub <- json_get (json r) (alias_or po k) ;;
        call_model construct (AClass name true) sub
  | Return (Some _) => Raise TypeError
  end.
Proof.
  unfold body_payload.
  destruct (get_pydantic_from_annots (dtype po)) as [[b|]|e] eqn:E;
    cbn [bind]; try reflexivity.
  destruct (get_pydantic_from_annots_shape _ _ E) as [[n ->]|[o [args ->]]];
    reflexivity.
Qed.

(** X14.  [define_body_from_annots] on an annotation that is a subscripted
    generic with at least one argument never keeps the declared parameter
    object: if it returns, the result is a new [Body] built from the
    default value alone, so the declared source and alias are gone. *)
Theorem define_body_from_annots_generic
        (Body_ : pyval -> annot -> param_object)
        (default_value po : param_object)
        (origin : string) (a0 : annot) (rest : list annot) :
  define_body_from_annots Body_ default_value
    (AGenericAlias origin (a0 :: rest)) = Return po ->
  exists m, po = Body_ (default default_value) m.
Proof.
  unfold define_body_from_annots; cbn [get_pydantic_from_annots].
  cbn [subclasscheck_BaseModel try_except].
  destruct (get_pydantic_from_annots a0) as [[b0|]|e]; cbn [bind];
    intros H; [| |discriminate]; injection H as <-; eauto.
Qed.

Lemma define_body_from_annots_generic_witness :
  exists m,
    mk_param Body VNone None (AGenericAlias "List" [AClass "int" false])
    = mk_param Body (default (mk_param Query VNone (Some "ids"%string)
                                       (AClass "str" false))) None m.
Proof.
  apply (define_body_from_annots_generic
           (fun d m => mk_param Body d None m)
           (mk_param Query VNone (Some "ids"%string) (AClass "str" false))
           (mk_param Body VNone None
                     (AGenericAlias "List" [AClass "int" false]))
           "List"%string (AClass "int" false) []).
  reflexivity.
Defined.

(** ** What extraction puts in the working set *)

Lemma dict_get_update {V : Type} (d e : dict V) k :
  NoDup (dict_keys e) ->
  dict_get k (dict_update d e) =
  match dict_get k e with
  | Some v => Some v
  | None => dict_get k d
  end.
Proof.
  intros Hnd; destruct (dict_get k e) as [v|] eqn:E.
  - apply dict_get_update_present; assumption.
  - apply dict_get_update_absent; exact E.
Qed.

Lemma dict_mem_keys {V : Type} (d : dict V) k :
  existsb (String.eqb k) (dict_keys d) = dict_mem k d.
Proof.
  unfold dict_mem; induction d as [|[k0 v0] d IH]; [reflexivity|].
  cbn [dict_keys map fst existsb dict_get] in *.
  rewrite String.eqb_sym; destruct (String.eqb k0 k); [reflexivity|exact IH].
Qed.


Lemma dict_get_form_kwargs r aliases variables a :
  dict_get a (form_kwargs r aliases variables) =
  if aliased (al_form aliases) variables a
     && truthy (multi_get a (form r))
  then Some (multi_get a (form r)) else None.
Proof.
  exact (dict_get_comp _ (fun k => truthy (multi_get k (form r)))
                       (fun k => multi_get k (form r)) a).
Qed.

Lemma dict_get_dummy_file_kwargs (fk : dict pyval) a :
  dict_get a (dummy_file_kwargs fk) =
  if dict_mem a fk then Some dummy else None.
Proof.
  unfold dummy_file_kwargs; rewrite dict_get_comp, andb_true_r, dict_mem_keys.
  reflexivity.
Qed.



(** X16.  For a request other than GET the working set holds, under a
    name [a]: the sentinel ["__dummy"] when [a] is the aliased name of a
    file key of the schema and a file with a file name was uploaded under
    it; else the first form value when [a] is the aliased name of a form
    key and the form has a value for it that is not empty; else nothing.
    What was matched from the path, the query string and the headers is
    not in it. *)
Theorem extracted_kwargs_of_post (paths : dict pyval) (r : request)
        (aliases : alias_tables) (variables : list string) (a : string) :
  is_get r = false ->
  dict_get a (extracted_kwargs paths r aliases variables) =
  if aliased (al_file aliases) variables a
     && truthy (files_get a (files r))
  then Some dummy
  else if aliased (al_form aliases) variables a
          && truthy (multi_get a (form r))
       then Some (multi_get a (form r))
       else None.
Proof.
  intros Hget; unfold extracted_kwargs.
  rewrite Hget; cbn [negb].
  rewrite dict_get_update by apply dict_comp_NoDup.
  rewrite dict_get_dummy_file_kwargs, dict_get_form_kwargs.
  unfold dict_mem; rewrite dict_get_file_kwargs.
  fold (aliased (al_file aliases) variables a).
  destruct (aliased (al_file aliases) variables a
            && truthy (files_get a (files r))); reflexivity.
Qed.

Lemma extracted_kwargs_of_post_witness :
  dict_get "document"
    (extracted_kwargs [("document", VStr "from the path")]%string
       upload_request (get_params_aliases upload_signature)
       (schema_fields upload_schema))
  = Some dummy
  /\ dict_get "id"
       (extracted_kwargs [("id", VStr "7")]%string
          upload_request (get_params_aliases upload_signature)
          (schema_fields upload_schema))
     = None.
Proof.
  split.
  - rewrite (extracted_kwargs_of_post [("document", VStr "from the path")]%string
               upload_request (get_params_aliases upload_signature)
               (schema_fields upload_schema) "document" eq_refl).
    reflexivity.
  - rewrite (extracted_kwargs_of_post [("id", VStr "7")]%string
               upload_request (get_params_aliases upload_signature)
               (schema_fields upload_schema) "id" eq_refl).
    reflexivity.
Defined.

Lemma extracted_kwargs_post_eq paths r aliases variables :
  is_get r = false ->
  extracted_kwargs paths r aliases variables =
  dict_update (form_kwargs r aliases variables)
              (dummy_file_kwargs (file_kwargs r aliases variables)).
Proof. intros Hget; unfold extracted_kwargs; rewrite Hget; reflexivity. Qed.

(** X17.  For a request other than GET the outcome of [get_kwargs] does
    not depend on the values matched from the path, on the query string or
    on the headers: they are dropped before validation. *)
Theorem get_kwargs_of_post_ignores_path_query_headers
        (construct : string -> dict pyval -> result pyval)
        (validate : pydantic_schema -> dict pyval -> result pyval)
        (depth : nat) (paths paths' : dict pyval) (r : request)
        (args' headers' : list (string * string))
        (paired_params : dict ParamSignature)
        (pydantic_model : pydantic_schema) (aliases : alias_tables) :
  is_get r = false ->
  get_kwargs construct validate depth paths' (set_args_headers args' headers' r)
             paired_params pydantic_model aliases
  = get_kwargs construct validate depth paths r paired_params pydantic_model
               aliases.
Proof.
  intros Hget; unfold get_kwargs, resolved_kwargs.
  rewrite (extracted_kwargs_post_eq paths r) by exact Hget.
  rewrite (extracted_kwargs_post_eq paths' (set_args_headers args' headers' r))
    by exact Hget.
  reflexivity.
Qed.

Lemma get_kwargs_of_post_ignores_path_query_headers_witness :
  get_kwargs (sample_construct no_coercion) (sample_validate [] no_coercion)
    0 [("user", VStr "from the path")]%string
    (set_args_headers [("user", "q")]%string [("user", "h")]%string
                      user_request)
    user_signature user_schema (get_params_aliases user_signature)
  = get_kwargs (sample_construct no_coercion)
      (sample_validate [] no_coercion) 0 [] user_request
      user_signature user_schema (get_params_aliases user_signature).
Proof.
  apply (get_kwargs_of_post_ignores_path_query_headers
           (sample_construct no_coercion) (sample_validate [] no_coercion) 0
           [] [("user", VStr "from the path")]%string user_request).
  reflexivity.
Defined.

(** X18.  When the signature has no parameter of type [Body], binding
    never evaluates [request.json], whatever the method: the outcome is
    the same for every payload, and for a payload that cannot be read. *)
Theorem get_kwargs_without_body_ignores_json
        (construct : string -> dict pyval -> result pyval)
        (validate : pydantic_schema -> dict pyval -> result pyval)
        (depth : nat) (paths : dict pyval) (r : request)
        (paired_params : dict ParamSignature)
        (pydantic_model : pydantic_schema) (aliases : alias_tables)
        (j : result pyval) :
  count_required_body paired_params = 0 ->
  get_kwargs construct validate depth paths (set_json j r) paired_params
             pydantic_model aliases
  = get_kwargs construct validate depth paths r paired_params pydantic_model
               aliases.
Proof.
  intros Hc; unfold get_kwargs, resolved_kwargs; rewrite Hc; reflexivity.
Qed.

Lemma get_kwargs_without_body_ignores_json_witness :
  get_kwargs (sample_construct no_coercion)
    (sample_validate [("doc", "document")]%string no_coercion) 0 []
    (set_json (Return (VList [])) upload_request)
    upload_signature upload_schema (get_params_aliases upload_signature)
  = get_kwargs (sample_construct no_coercion)
      (sample_validate [("doc", "document")]%string no_coercion) 0 []
      upload_request
      upload_signature upload_schema (get_params_aliases upload_signature).
Proof.
  apply (get_kwargs_without_body_ignores_json
           (sample_construct no_coercion)
           (sample_validate [("doc", "document")]%string no_coercion) 0 []
           upload_request upload_signature).
  reflexivity.
Defined.

(** ** More on the body step *)

(** X12.  With two or more [Body] parameters, a model-typed [Body] key
    whose alias key is missing from the JSON payload does not become
    [None]: the model class is called on [None] and binding ends with
    an exception. *)
Theorem missing_sub_object_raises
        (construct : string -> dict pyval -> result pyval)
        (validate : pydantic_schema -> dict pyval -> result pyval)
        (depth : nat) (paths : dict pyval) (r : request)
        (paired_params : dict ParamSignature)
        (pydantic_model : pydantic_schema) (aliases : alias_tables)
        (k : string) (pp : ParamSignature) (name : string)
        (payload : dict pyval) :
  is_get r = false ->
  In k (get_non_exist_var_in_kwargs pydantic_model
          (extracted_kwargs paths r aliases (schema_fields pydantic_model))) ->
  dict_get k paired_params = Some pp ->
  pclass (sig_param_object pp) = Body ->
  get_pydantic_from_annots (dtype (sig_param_object pp))
  = Return (Some (AClass name true)) ->
  2 <= count_required_body paired_params ->
  json r = Return (VDict payload) ->
  dict_get (alias_or (sig_param_object pp) k) payload = None ->
  body_payload construct r (count_required_body paired_params)
               (sig_param_object pp) k = Raise TypeError
  /\ exists e,
      get_kwargs construct validate depth paths r paired_params
                 pydantic_model aliases = Raise e.
Proof.
  intros Hget Hin Hpp Hbody Hunwrap Hcount Hjson Hmiss.
  assert (body_payload construct r (count_required_body paired_params)
                       (sig_param_object pp) k = Raise TypeError) as Hraise.
  { rewrite (body_payload_structured _ _ _ _ _ _ Hunwrap).
    destruct (count_required_body paired_params =? 1) eqn:E1;
      [apply Nat.eqb_eq in E1; lia|].
    unfold json_get; rewrite Hjson; cbn [bind]; rewrite Hmiss; reflexivity. }
  split; [exact Hraise|].
  unfold get_kwargs, resolved_kwargs.
  destruct (count_required_body paired_params =? 0) eqn:E0;
    [apply Nat.eqb_eq in E0; lia|].
  destruct (foldM_raises
              (resolve_body construct r paired_params
                            (count_required_body paired_params))
              _ k Hin) with
      (s := extracted_kwargs paths r aliases (schema_fields pydantic_model))
    as [e He].
  - intros s; rewrite (resolve_body_post _ _ _ _ _ _ _ Hget Hpp Hbody), Hraise.
    cbn [bind]; eauto.
  - rewrite He; cbn [bind]; eauto.
Qed.

Lemma missing_sub_object_raises_witness :
  exists e,
    get_kwargs (sample_construct no_coercion) (sample_validate [] no_coercion)
      0 []
      (mk_request "POST" [] [] [] []
         (Return (VDict [("user", VDict [("name", VStr "ann")])]%string)))
      users_signature users_schema (get_params_aliases users_signature)
    = Raise e.
Proof.
  apply (missing_sub_object_raises (sample_construct no_coercion)
           (sample_validate [] no_coercion) 0 []
           (mk_request "POST" [] [] [] []
              (Return (VDict [("user", VDict [("name", VStr "ann")])]%string)))
           users_signature users_schema (get_params_aliases users_signature)
           "meta"%string (model_sig "meta" "Meta" (Some "info"%string))
           "Meta"%string
           [("user", VDict [("name", VStr "ann")])]%string);
    try reflexivity; try (simpl; tauto); vm_compute; lia.
Defined.

(** X13.  A [Body] key whose [dtype] does not unwrap to anything (a plain
    class such as [str]) is read from the JSON payload under its alias key
    also when it is the only [Body] parameter, and is [None] when the
    payload, a dictionary, has no such key. *)
Theorem scalar_body_binding
        (construct : string -> dict pyval -> result pyval)
        (paths : dict pyval) (r : request)
        (paired_params : dict ParamSignature)
        (pydantic_model : pydantic_schema) (aliases : alias_tables)
        (k : string) (pp : ParamSignature) (payload kwargs : dict pyval) :
  is_get r = false ->
  In k (get_non_exist_var_in_kwargs pydantic_model
          (extracted_kwargs paths r aliases (schema_fields pydantic_model))) ->
  dict_get k paired_params = Some pp ->
  pclass (sig_param_object pp) = Body ->
  get_pydantic_from_annots (dtype (sig_param_object pp)) = Return None ->
  json r = Return (VDict payload) ->
  resolved_kwargs construct paths r paired_params pydantic_model aliases
  = Return kwargs ->
  dict_get k kwargs
  = Some match dict_get (alias_or (sig_param_object pp) k) payload with
         | Some v => v
         | None => VNone
         end.
Proof.
  intros Hget Hin Hpp Hbody Hunwrap Hjson Hres.
  unfold resolved_kwargs in Hres.
  pose proof (count_required_body_pos _ _ _ Hpp Hbody) as Hpos.
  destruct (count_required_body paired_params =? 0) eqn:E0;
    [apply Nat.eqb_eq in E0; lia|].
  destruct (body_loop_binds construct r paired_params
              (count_required_body paired_params) k pp Hget Hpp Hbody
              _ _ _ Hin Hres) as [v [Hv Hk]].
  rewrite Hk; f_equal.
  unfold body_payload in Hv; rewrite Hunwrap in Hv; cbn [bind] in Hv.
  unfold json_get in Hv; rewrite Hjson in Hv; cbn [bind] in Hv.
  destruct (dict_get _ payload); injection Hv as <-; reflexivity.
Qed.

Lemma scalar_body_binding_witness :
  exists kwargs,
    resolved_kwargs (sample_construct no_coercion) []
      (mk_request "POST" [] [] [] []
         (Return (VDict [("note", VStr "hello")]%string)))
      [("note", str_sig "note" Body None)]%string
      (mk_schema "addSchema" ["note"]%string true)
      (get_params_aliases [("note", str_sig "note" Body None)]%string)
    = Return kwargs
    /\ dict_get "note" kwargs = Some (VStr "hello").
Proof.
  eexists; split; [reflexivity|].
  apply (scalar_body_binding (sample_construct no_coercion) []
           (mk_request "POST" [] [] [] []
              (Return (VDict [("note", VStr "hello")]%string)))
           [("note", str_sig "note" Body None)]%string
           (mk_schema "addSchema" ["note"]%string true)
           (get_params_aliases [("note", str_sig "note" Body None)]%string)
           "note"%string (str_sig "note" Body None)
           [("note", VStr "hello")]%string);
    try reflexivity.
  simpl; tauto.
Defined.

Lemma resolve_body_not_body construct r paired_params total_body kwargs k :
  body_key paired_params k = false ->
  resolve_body construct r paired_params total_body kwargs k = Return kwargs.
Proof.
  unfold body_key, resolve_body.
  destruct (dict_get k paired_params) as [pp|]; [|reflexivity].
  intros ->; reflexivity.
Qed.

Lemma body_loop_frame construct r paired_params total_body k :
  forall keys kwargs kwargs',
    ~ (In k keys /\ body_key paired_params k = true) ->
    foldM (resolve_body construct r paired_params total_body) keys kwargs
    = Return kwargs' ->
    dict_get k kwargs' = dict_get k kwargs.
Proof.
  induction keys as [|k' keys IH]; intros kwargs kwargs' Hk H.
  - injection H as <-; reflexivity.
  - cbn [foldM] in H; apply bind_return in H as [kw1 [Hstep Hrest]].
    rewrite (IH kw1 kwargs'); [| |exact Hrest].
    + destruct (string_eq_dec_cases k k') as [<-|Hne].
      * rewrite resolve_body_not_body in Hstep.
        -- injection Hstep as <-; reflexivity.
        -- destruct (body_key paired_params k); [|reflexivity].
           exfalso; apply Hk; split; [left; reflexivity | reflexivity].
      * exact (resolve_body_other construct r paired_params total_body
                 _ _ _ _ Hstep Hne).
    + intros [Hin Hb]; apply Hk; split; [right; exact Hin | exact Hb].
Qed.

Lemma body_step_frame_lemma construct paths r paired_params pydantic_model
      aliases kwargs k :
  resolved_kwargs construct paths r paired_params pydantic_model aliases
  = Return kwargs ->
  body_key paired_params k = false
  \/ dict_get k (extracted_kwargs paths r aliases
                   (schema_fields pydantic_model)) <> None ->
  dict_get k kwargs
  = dict_get k (extracted_kwargs paths r aliases
                  (schema_fields pydantic_model)).
Proof.
  intros Hres Hk; unfold resolved_kwargs in Hres.
  destruct (count_required_body paired_params =? 0).
  - injection Hres as <-; reflexivity.
  - apply (body_loop_frame construct r paired_params _ k _ _ _) in Hres;
      [exact Hres|].
    intros [Hin Hb]; apply in_empty_keys in Hin as [_ Hnone].
    destruct Hk as [Hk|Hk]; congruence.
Qed.

(** X19.  The body step only writes under [Body] keys that were absent:
    every other entry of the working set, and every name that is not a
    [Body] key, is after the step as extraction left it. *)
Theorem body_step_frame
        (construct : string -> dict pyval -> result pyval)
        (paths : dict pyval) (r : request)
        (paired_params : dict ParamSignature)
        (pydantic_model : pydantic_schema) (aliases : alias_tables)
        (kwargs : dict pyval) (k : string) :
  resolved_kwargs construct paths r paired_params pydantic_model aliases
  = Return kwargs ->
  body_key paired_params k = false
  \/ dict_get k (extracted_kwargs paths r aliases
                   (schema_fields pydantic_model)) <> None ->
  dict_get k kwargs
  = dict_get k (extracted_kwargs paths r aliases
                  (schema_fields pydantic_model)).
Proof. apply body_step_frame_lemma. Qed.

Lemma body_step_frame_witness :
  exists kwargs,
    resolved_kwargs (sample_construct no_coercion) [] users_request
      users_signature users_schema (get_params_aliases users_signature)
    = Return kwargs
    /\ dict_get "info" kwargs = None.
Proof.
  eexists; split; [reflexivity|].
  apply (body_step_frame (sample_construct no_coercion) [] users_request
           users_signature users_schema (get_params_aliases users_signature)
           _ "info"%string eq_refl).
  left; reflexivity.
Defined.

(** ** The wrapped handler *)



(** ** The alias tables *)

Lemma alias_table_step c al key pp k :
  dict_get k
    (alias_table c
       (let po := sig_param_object pp in
        let a := alias_or po key in
        match pclass po with
        | Path => mk_aliases (dict_set key a (al_path al)) (al_header al)
                    (al_query al) (al_body al) (al_form al) (al_file al)
        | Header => mk_aliases (al_path al) (dict_set key a (al_header al))
                    (al_query al) (al_body al) (al_form al) (al_file al)
        | Query => mk_aliases (al_path al) (al_header al)
                    (dict_set key a (al_query al)) (al_body al) (al_form al)
                    (al_file al)
        | Body => mk_aliases (al_path al) (al_header al) (al_query al)
                    (dict_set key a (al_body al)) (al_form al) (al_file al)
        | Form | FormURLEncoded =>
                  mk_aliases (al_path al) (al_header al) (al_query al)
                    (al_body al) (dict_set key a (al_form al)) (al_file al)
        | File => mk_aliases (al_path al) (al_header al) (al_query al)
                    (al_body al) (al_form al) (dict_set key a (al_file al))
        end)) =
  if String.eqb key k && same_table (pclass (sig_param_object pp)) c
  then Some (alias_or (sig_param_object pp) key)
  else dict_get k (alias_table c al).
Proof.
  cbv zeta.
  destruct (pclass (sig_param_object pp)), c;
    cbn [alias_table al_path al_header al_query al_body al_form al_file
         same_table param_class_eqb];
    rewrite ?andb_false_r, ?andb_true_r; try reflexivity;
    apply dict_get_set.
Qed.

Lemma get_params_aliases_fold c k : forall paired_params al,
  NoDup (dict_keys paired_params) ->
  dict_get k
    (alias_table c
       (fold_left
          (fun al kv =>
             let key := fst kv in
             let po := sig_param_object (snd kv) in
             let a := alias_or po key in
             match pclass po with
             | Path => mk_aliases (dict_set key a (al_path al)) (al_header al)
                         (al_query al) (al_body al) (al_form al) (al_file al)
             | Header => mk_aliases (al_path al)
                         (dict_set key a (al_header al))
                         (al_query al) (al_body al) (al_form al) (al_file al)
             | Query => mk_aliases (al_path al) (al_header al)
                         (dict_set key a (al_query al)) (al_body al)
                         (al_form al) (al_file al)
             | Body => mk_aliases (al_path al) (al_header al) (al_query al)
                         (dict_set key a (al_body al)) (al_form al)
                         (al_file al)
             | Form | FormURLEncoded =>
                       mk_aliases (al_path al) (al_header al) (al_query al)
                         (al_body al) (dict_set key a (al_form al))
                         (al_file al)
             | File => mk_aliases (al_path al) (al_header al) (al_query al)
                         (al_body al) (al_form al)
                         (dict_set key a (al_file al))
             end)
          paired_params al)) =
  match dict_get k paired_params with
  | Some pp =>
      if same_table (pclass (sig_param_object pp)) c
      then Some (alias_or (sig_param_object pp) k)
      else dict_get k (alias_table c al)
  | None => dict_get k (alias_table c al)
  end.
Proof.
  induction paired_params as [|[key pp] rest IH]; intros al Hnd.
  - reflexivity.
  - cbn [fold_left dict_get fst snd].
    inversion Hnd as [|? ? Hnotin Hnd']; subst.
    rewrite (IH _ Hnd'), alias_table_step.
    destruct (String.eqb key k) eqn:E; cbn [andb].
    + apply String.eqb_eq in E; subst key.
      apply dict_get_in_keys in Hnotin; rewrite Hnotin; reflexivity.
    + destruct (dict_get k rest); reflexivity.
Qed.

(** X21.  For a signature with one entry per key, the table of a source
    holds a key exactly when the key's parameter object is of that source
    ([Form] and [FormURLEncoded] share the form table), and holds for it
    the alias, or the key itself when no alias is declared: a key is in
    one table only. *)
Theorem get_params_aliases_lookup (paired_params : dict ParamSignature)
        (c : param_class) (k : string) :
  NoDup (dict_keys paired_params) ->
  dict_get k (alias_table c (get_params_aliases paired_params)) =
  match dict_get k paired_params with
  | Some pp =>
      if same_table (pclass (sig_param_object pp)) c
      then Some (alias_or (sig_param_object pp) k)
      else None
  | None => None
  end.
Proof.
  intros Hnd.
  pose proof (get_params_aliases_fold c k paired_params no_aliases Hnd) as H.
  assert (dict_get k (alias_table c no_aliases) = None) as E
    by (destruct c; reflexivity).
  rewrite E in H; exact H.
Qed.

Lemma get_params_aliases_lookup_witness :
  dict_get "meta" (alias_table Body (get_params_aliases users_signature))
  = Some "info"%string
  /\ dict_get "meta" (alias_table Query (get_params_aliases users_signature))
     = None.
Proof.
  assert (Hnd : NoDup (dict_keys users_signature))
    by (repeat constructor; simpl; intuition discriminate).
  split.
  - rewrite (get_params_aliases_lookup users_signature Body "meta" Hnd).
    reflexivity.
  - rewrite (get_params_aliases_lookup users_signature Query "meta" Hnd).
    reflexivity.
Defined.

(** ** Registering the endpoint descriptors *)

Lemma register_methods_valid o func_name rule paired_params pydantic_model
      aliases methods : forall ls,
  forallb valid_method methods = true ->
  register_methods o func_name rule paired_params pydantic_model aliases
                   methods ls
  = (mk_lists
       (defined_endpoints ls
        ++ map (make_endpoint o func_name rule paired_params pydantic_model
                              aliases) methods)
       (_all_endpoints ls
        ++ map (make_endpoint o func_name rule paired_params pydantic_model
                              aliases) methods),
     Registered).
Proof.
  induction methods as [|m methods IH]; intros ls Hv.
  - cbn [register_methods map]; rewrite !app_nil_r; destruct ls; reflexivity.
  - cbn [forallb] in Hv; apply andb_true_iff in Hv as [Hm Hv].
    cbn [register_methods]; unfold valid_method in Hm; rewrite Hm.
    rewrite (IH _ Hv); cbn [defined_endpoints _all_endpoints map].
    rewrite <- !app_assoc; reflexivity.
Qed.

(** X22.  When every method of the route is an available one, in any
    case of letters, the loop appends one descriptor per method, in the
    order of the methods, to the router's [defined_endpoints] and to the
    class-wide [_all_endpoints]; a route without [methods] gets the one
    descriptor of GET. *)
Theorem register_swagger_all_valid
        (o : route_options) (func_name : string) (rule : str)
        (paired_params : dict ParamSignature)
        (pydantic_model : pydantic_schema) (aliases : alias_tables)
        (ls : endpoint_lists) :
  forallb valid_method
          (match opt_methods o with
           | Some methods => methods
           | None => ["GET"%string]
           end) = true ->
  register_swagger o func_name rule paired_params pydantic_model aliases ls
  = (mk_lists
       (defined_endpoints ls
        ++ map (make_endpoint o func_name rule paired_params pydantic_model
                              aliases)
               (match opt_methods o with
                | Some methods => methods
                | None => ["GET"%string]
                end))
       (_all_endpoints ls
        ++ map (make_endpoint o func_name rule paired_params pydantic_model
                              aliases)
               (match opt_methods o with
                | Some methods => methods
                | None => ["GET"%string]
                end)),
     Registered).
Proof. intros Hv; unfold register_swagger; apply register_methods_valid, Hv. Qed.


Lemma register_swagger_all_valid_witness :
  map ep_method
      (defined_endpoints
         (fst (register_swagger (plain_options (Some ["get"; "Post"]%string))
                 "item" (s2l "/items/<id>") item_signature item_schema
                 (get_params_aliases item_signature) (mk_lists [] []))))
  = ["get"; "post"]%string.
Proof.
  rewrite (register_swagger_all_valid
             (plain_options (Some ["get"; "Post"]%string)) "item"
             (s2l "/items/<id>") item_signature item_schema
             (get_params_aliases item_signature) (mk_lists [] []) eq_refl).
  reflexivity.
Defined.






(** X25.  For a pattern of text and placeholders that [validate_rule]
    accepts and a router prefix without [<], the rule stored in the
    descriptor is the prefix followed by the pattern with [{name}] for each
    placeholder. *)
Theorem make_endpoint_rule
        (o : route_options) (func_name : string)
        (paired_params : dict ParamSignature)
        (pydantic_model : pydantic_schema) (aliases : alias_tables)
        (http_method : string) (segs : list segment) (r : str) :
  Forall wf_segment segs ->
  ~ In ch_lt (url_prefix o) ->
  validate_rule (render segs) = Return r ->
  ep_rule (make_endpoint o func_name r paired_params pydantic_model aliases
                         http_method)
  = url_prefix o ++ doc_path segs.
Proof.
  intros Hwf Hp Hv; cbn [make_endpoint ep_rule].
  rewrite (validate_rule_wf segs Hwf) in Hv.
  apply bind_return in Hv as [_ [_ [= <-]]].
  unfold validate_rule_for_swagger; rewrite fold_left_app.
  pose proof (swagger_text (url_prefix o) Hp []) as H1.
  pose proof (swagger_untyped segs Hwf (url_prefix o)) as H2.
  unfold str in *; cbn [app] in H1; rewrite H1, H2; reflexivity.
Qed.

Lemma make_endpoint_rule_witness :
  ep_rule (make_endpoint (plain_options None) "item" (s2l "/shop/<id>/items")
             item_signature item_schema (get_params_aliases item_signature)
             "GET")
  = s2l "/api/shop/{id}/items".
Proof.
  apply (make_endpoint_rule (plain_options None) "item" item_signature
           item_schema (get_params_aliases item_signature) "GET"
           shop_pattern (s2l "/shop/<id>/items")).
  - repeat constructor; simpl; intuition discriminate.
  - simpl; intuition discriminate.
  - reflexivity.
Defined.

(** ** The dependency list, again *)

Section DependencyLists.
Variable func : Type.
Variable func_eqb : func -> func -> bool.
Hypothesis func_eqb_spec : forall f g, func_eqb f g = true <-> f = g.

(** X26.  [update_dependencies] keeps the list as a prefix of the result
    and appends, once each, exactly the entries of [stack] that were not in
    the list; a list without duplicates stays without duplicates. *)
Theorem update_dependencies_appends
        (dependecies stack : list (dependency func)) :
  exists added,
    update_dependencies func_eqb dependecies stack = dependecies ++ added
    /\ NoDup added
    /\ (forall s, In s added <-> In s stack /\ ~ In s dependecies)
    /\ (NoDup dependecies ->
        NoDup (update_dependencies func_eqb dependecies stack)).
Proof.
  destruct (update_dependencies_grows func func_eqb func_eqb_spec stack
              dependecies) as [added [Heq [Hnd Hin]]].
  exists added.
  split; [exact Heq|]. split; [exact Hnd|]. split; [exact Hin|].
  intros Hd; rewrite Heq; apply NoDup_app; [exact Hd | exact Hnd|].
  intros s Hs Ha; apply Hin in Ha as [_ Hn]; exact (Hn Hs).
Qed.

Lemma update_dependencies_present (stack : list (dependency func)) :
  forall dependecies,
    (forall s, In s stack -> In s dependecies) ->
    update_dependencies func_eqb dependecies stack = dependecies.
Proof.
  induction stack as [|s stack IH]; intros deps Hall; [reflexivity|].
  cbn [update_dependencies fold_left].
  assert (existsb (dependency_eqb func_eqb s) deps = true) as ->.
  { apply (member_In func func_eqb func_eqb_spec), Hall; left; reflexivity. }
  apply IH; intros x Hx; apply Hall; right; exact Hx.
Qed.

(** X27.  Declaring dependencies that the router already has changes
    nothing, so registering the same dependencies again, on the same or
    on a later route, leaves the list as the first registration made
    it. *)
Theorem update_dependencies_idempotent
        (dependecies stack : list (dependency func)) :
  ((forall s, In s stack -> In s dependecies) ->
   update_dependencies func_eqb dependecies stack = dependecies)
  /\ update_dependencies func_eqb
       (update_dependencies func_eqb dependecies stack) stack
     = update_dependencies func_eqb dependecies stack.
Proof.
  split; [apply update_dependencies_present|].
  apply update_dependencies_present.
  intros s Hs.
  apply (update_dependencies_has_stack func func_eqb func_eqb_spec), Hs.
Qed.

(** X28.  A router made without a [dependencies] argument stores the
    default list object of [__init__], which every such router shares:
    after a route of one of them has declared a dependency, the dependency
    is in the list of all of them, while the lists that callers passed in
    are as they were. *)
Theorem default_dependencies_shared
        (store : list_ref -> list (dependency func))
        (stack : list (dependency func)) (s : dependency func) (n : nat) :
  In s stack ->
  In s (update_dependencies_in_place func_eqb store (init_dependecies None)
          stack (init_dependecies None))
  /\ update_dependencies_in_place func_eqb store (init_dependecies None)
       stack (CallerList n)
     = store (CallerList n)
  /\ update_dependencies_in_place func_eqb store (CallerList n) stack
       (init_dependecies None)
     = store (init_dependecies None).
Proof.
  intros Hs; unfold update_dependencies_in_place, init_dependecies.
  cbn [list_ref_eqb]; split; [|split; reflexivity].
  apply (update_dependencies_has_stack func func_eqb func_eqb_spec), Hs.
Qed.

End DependencyLists.

Lemma update_dependencies_appends_witness :
  exists added,
    update_dependencies Nat.eqb [DepCallable 1; DepCallable 2]
                        [DepCallable 2; DepCallable 3; DepCallable 3]
    = [DepCallable 1; DepCallable 2] ++ added
    /\ NoDup added.
Proof.
  destruct (update_dependencies_appends nat Nat.eqb Nat.eqb_eq
              [DepCallable 1; DepCallable 2]
              [DepCallable 2; DepCallable 3; DepCallable 3])
    as [added [Heq [Hnd _]]].
  exists added; split; assumption.
Defined.

Lemma update_dependencies_idempotent_witness :
  update_dependencies Nat.eqb [DepCallable 1; DepCallable 2]
                      [DepCallable 2; DepCallable 1]
  = [DepCallable 1; DepCallable 2].
Proof.
  apply (proj1 (update_dependencies_idempotent nat Nat.eqb Nat.eqb_eq
                  [DepCallable 1; DepCallable 2]
                  [DepCallable 2; DepCallable 1])).
  simpl; intuition.
Defined.

Lemma default_dependencies_shared_witness :
  In (DepCallable 7)
     (update_dependencies_in_place Nat.eqb (fun _ => [])
        (init_dependecies None) [DepCallable 7] (init_dependecies None)).
Proof.
  apply (proj1 (default_dependencies_shared nat Nat.eqb Nat.eqb_eq
                  (fun _ => []) [DepCallable 7] (DepCallable 7) 0
                  (or_introl eq_refl))).
Defined.

(** ** Files without an alias *)

(** X29.  For a request other than GET and a file key that has no alias,
    with a file uploaded under the key: validation sees the sentinel
    ["__dummy"] under the key, and in the mapping handed to the handler
    the key holds the uploaded file itself, whatever validation made of the
    sentinel. *)
Theorem unaliased_file_reaches_handler
        (construct : string -> dict pyval -> result pyval)
        (validate : pydantic_schema -> dict pyval -> result pyval)
        (depth : nat) (paths : dict pyval) (r : request)
        (paired_params : dict ParamSignature)
        (pydantic_model : pydantic_schema) (aliases : alias_tables)
        (kwargs : dict pyval) (cls : string) (fields : dict pyval)
        (k : string) (f : file_storage) :
  is_get r = false ->
  resolved_kwargs construct paths r paired_params pydantic_model aliases
  = Return kwargs ->
  validate pydantic_model kwargs = Return (VModel cls fields) ->
  In k (schema_fields pydantic_model) ->
  dict_get k (al_file aliases) = Some k ->
  dict_get k (files r) = Some f ->
  fs_filename f <> ""%string ->
  dict_get k kwargs = Some dummy
  /\ exists final,
      get_kwargs construct validate depth paths r paired_params
                 pydantic_model aliases = Return final
      /\ dict_get k final = Some (VFile f).
Proof.
  intros Hget Hres Hv Hin Hal Hf Hname.
  destruct (file_overwrites_sentinel_unaliased validate depth paths r
              pydantic_model aliases kwargs cls fields k f
              Hget Hv Hin Hal Hf Hname) as [Hdummy [final [Hfin Hk]]].
  split.
  - rewrite (body_step_frame_lemma construct paths r paired_params
               pydantic_model aliases kwargs k Hres); [exact Hdummy|].
    right; rewrite Hdummy; discriminate.
  - exists final; unfold get_kwargs; rewrite Hres; cbn [bind].
    split; assumption.
Qed.

Lemma unaliased_file_reaches_handler_witness :
  exists final,
    get_kwargs (sample_construct no_coercion) (sample_validate [] no_coercion)
      0 [] plain_upload_request plain_upload_signature upload_schema
      (get_params_aliases plain_upload_signature)
    = Return final
    /\ dict_get "doc" final = Some (VFile upload_file).
Proof.
  apply (unaliased_file_reaches_handler (sample_construct no_coercion)
           (sample_validate [] no_coercion) 0 [] plain_upload_request
           plain_upload_signature upload_schema
           (get_params_aliases plain_upload_signature)
           [("doc", VStr "__dummy")]%string "uploadSchema"%string
           [("doc", VStr "__dummy")]%string "doc"%string upload_file);
    try reflexivity; [simpl; tauto | discriminate].
Defined.

(** ** Validated rules are stable *)

Lemma count_char_untyped_le segs :
  count_char ch_colon (untyped segs) <= count_char ch_colon (render segs).
Proof.
  unfold untyped, render, count_char.
  induction segs as [|seg segs IH]; [reflexivity|].
  cbn [flat_map]; rewrite !count_occ_app.
  destruct seg as [t|[ty|] name]; cbn [untyped_segment render_segment];
    rewrite ?count_occ_app; cbn [app count_occ];
    repeat match goal with
           | |- context [ascii_dec ?a ?b] => destruct (ascii_dec a b)
           end; lia.
Qed.

(** X30.  A rule that [validate_rule] returned is stable: for a pattern of
    text and placeholders with at most one colon in all, validating the
    validated rule again returns it unchanged. *)
Theorem validate_rule_stable (segs : list segment) (r : str) :
  Forall wf_segment segs ->
  count_char ch_colon (render segs) <= 1 ->
  validate_rule (render segs) = Return r ->
  validate_rule r = Return r.
Proof.
  intros Hwf Hc Hv.
  rewrite (validate_rule_wf segs Hwf) in Hv.
  apply bind_return in Hv as [_ [_ [= <-]]].
  set (segs' := map (fun seg => match seg with
                                | Text t => Text t
                                | Placeholder _ name => Placeholder None name
                                end) segs).
  assert (render segs' = untyped segs) as Hr.
  { unfold render, untyped, segs'; clear.
    induction segs as [|[t|ty name] segs IH]; cbn [map flat_map];
      rewrite ?IH; reflexivity. }
  assert (untyped segs' = untyped segs) as Hu.
  { unfold untyped, segs'; clear.
    induction segs as [|[t|ty name] segs IH]; cbn [map flat_map];
      rewrite ?IH; reflexivity. }
  assert (Forall wf_segment segs') as Hwf'.
  { unfold segs'; clear -Hwf.
    induction Hwf as [|[t|[ty|] name] segs Hseg _ IH]; cbn [map];
      constructor; try exact IH; cbn [wf_segment] in *; tauto. }
  rewrite <- Hr, (validate_rule_wf segs' Hwf'), Hu.
  rewrite assert_single_type_passes; [rewrite Hr; reflexivity|].
  eapply Forall_impl; [|apply (findall_aux_count ch_colon)].
  intros m Hm; cbv beta in *; rewrite Hr in Hm.
  pose proof (count_char_untyped_le segs); lia.
Qed.

Lemma validate_rule_stable_witness :
  validate_rule (s2l "/shop/<id>/items") = Return (s2l "/shop/<id>/items").
Proof.
  apply (validate_rule_stable shop_pattern (s2l "/shop/<id>/items")).
  - repeat constructor; simpl; intuition discriminate.
  - vm_compute; lia.
  - reflexivity.
Defined.
